(** * Editor::ItemBase (Telegram/SourceFiles/editor/scene_item_base.cpp)

    A shallow embedding of the photo editor's scene item base class: the
    handle hit test, the drag handler that resizes and rotates, the press
    and release handlers that drive the active handle, the selection
    painting and the context menu with its three actions.

    Number model.  A [float64] is modelled by the rational number it
    denotes and float64 arithmetic is exact: rounding, infinities and NaN
    are outside the model, and so is division by zero.  An [int] is a
    [Z]; the conversion from float64 to int truncates toward zero and, as
    in C++, has no defined result when the truncated value does not fit
    in 32 bits, which the model renders by [option]. *)

From Stdlib Require Import ZArith QArith Qround Qabs Lia Lqa List Bool.
Import ListNotations.

Local Open Scope Q_scope.

(** ** Numbers *)

Definition float64 := Q.

Definition Qlt_bool (x y : Q) : bool := negb (Qle_bool y x).

Definition INT_MIN : Z := (- 2 ^ 31)%Z.
Definition INT_MAX : Z := (2 ^ 31 - 1)%Z.

(** Truncation toward zero, the value of a float64 to int conversion. *)
Definition Qtrunc (x : Q) : Z := Z.quot (Qnum x) (Zpos (Qden x)).

Definition fits_int (z : Z) : bool := ((INT_MIN <=? z) && (z <=? INT_MAX))%Z.

(** [int(x)]: defined only when the truncated value is representable. *)
Definition to_int (x : float64) : option Z :=
  if fits_int (Qtrunc x) then Some (Qtrunc x) else None.

(** [std::abs] on float64. *)
Definition fabs (x : float64) : float64 := Qabs x.

(** [std::round]: to the nearest integer, halfway cases away from zero. *)
Definition round (x : float64) : float64 :=
  if Qlt_bool x 0
  then inject_Z (- Qfloor (- x + (1 # 2)))
  else inject_Z (Qfloor (x + (1 # 2))).

(** [std::clamp(v, lo, hi)] on int; the library requires [lo <= hi]. *)
Definition clamp (v lo hi : Z) : Z :=
  if (v <? lo)%Z then lo else if (hi <? v)%Z then hi else v.

(** Bit flags ([QFlags]): [flags & bit] is non-zero. *)
Definition has_flag (flags bit : Z) : bool := negb (Z.land flags bit =? 0)%Z.

(** [QFlags::testFlag]. *)
Definition testFlag (flags flag : Z) : bool :=
  ((Z.land flags flag =? flag) && (negb (flag =? 0) || (flags =? flag)))%Z.

(** ** The toolkit's geometry value types *)

Module Qt.

Record QPointF := mkPoint { x : float64; y : float64 }.

(** [QPointF * qreal] and [QPointF - QPointF]. *)
Definition pmul (p : QPointF) (c : float64) : QPointF :=
  mkPoint (x p * c) (y p * c).
Definition psub (p q : QPointF) : QPointF :=
  mkPoint (x p - x q) (y p - y q).

Record QMarginsF :=
  mkMargins { mleft : float64; mtop : float64;
              mright : float64; mbottom : float64 }.

(** [QMarginsF * qreal]. *)
Definition mmul (m : QMarginsF) (c : float64) : QMarginsF :=
  mkMargins (mleft m * c) (mtop m * c) (mright m * c) (mbottom m * c).

Record QRectF :=
  mkRect { xp : float64; yp : float64; width : float64; height : float64 }.

Definition center (r : QRectF) : QPointF :=
  mkPoint (xp r + width r / 2) (yp r + height r / 2).

(** [QRectF + QMarginsF] grows the rectangle, [-] shrinks it. *)
Definition marginsAdded (r : QRectF) (m : QMarginsF) : QRectF :=
  mkRect (xp r - mleft m) (yp r - mtop m)
         (width r + mleft m + mright m) (height r + mtop m + mbottom m).
Definition marginsRemoved (r : QRectF) (m : QMarginsF) : QRectF :=
  mkRect (xp r + mleft m) (yp r + mtop m)
         (width r - mleft m - mright m) (height r - mtop m - mbottom m).

(** [QRectF::contains(const QPointF &)]: the rectangle is normalised, a
    rectangle of zero width or height contains nothing, and the edges
    belong to the rectangle. *)
Definition contains (r : QRectF) (p : QPointF) : bool :=
  let l := if Qlt_bool (width r) 0 then xp r + width r else xp r in
  let rr := if Qlt_bool (width r) 0 then xp r else xp r + width r in
  if Qeq_bool l rr then false
  else if Qlt_bool (x p) l || Qlt_bool rr (x p) then false
  else
    let t := if Qlt_bool (height r) 0 then yp r + height r else yp r in
    let b := if Qlt_bool (height r) 0 then yp r else yp r + height r in
    if Qeq_bool t b then false
    else if Qlt_bool (y p) t || Qlt_bool b (y p) then false
    else true.

Inductive MouseButton := NoButton | LeftButton | RightButton | MiddleButton.

Definition MouseButton_eqb (a b : MouseButton) : bool :=
  match a, b with
  | NoButton, NoButton | LeftButton, LeftButton
  | RightButton, RightButton | MiddleButton, MiddleButton => true
  | _, _ => false
  end.

Inductive CursorShape := ArrowCursor | OpenHandCursor | ClosedHandCursor.

Inductive PenStyle := SolidLine | DashLine.
Inductive PenCapStyle := SquareCap.
Inductive PenJoinStyle := RoundJoin.
Inductive GlobalColor := white | gray.

(** A colour is one of Qt's global colours or a colour of the style sheet,
    kept by its value. *)
Inductive QColor := Global (c : GlobalColor) | Styled (rgba : Z).
Inductive QBrush := NoBrush | SolidPattern (c : QColor).

Record QPen :=
  mkPen { penBrush : QBrush; penWidth : float64; penStyle : PenStyle;
          penCap : PenCapStyle; penJoin : PenJoinStyle }.

Definition setStyle (pen : QPen) (style : PenStyle) : QPen :=
  mkPen (penBrush pen) (penWidth pen) style (penCap pen) (penJoin pen).

(** [Qt::ShiftModifier], [QStyle::State_HasFocus], [QStyle::State_Selected]. *)
Definition ShiftModifier : Z := 0x02000000%Z.
Definition State_HasFocus : Z := 0x00000100%Z.
Definition State_Selected : Z := 0x00008000%Z.

(** What the scene graph keeps for an item: [pos()], [rotation()],
    [zValue()], [isSelected()] and [cursor()]. *)
Record QGraphicsItem :=
  mkGraphicsItem { pos : QPointF; rotation : float64; zValue : float64;
                   isSelected : bool; cursor : CursorShape }.

Definition setPos (g : QGraphicsItem) (p : QPointF) : QGraphicsItem :=
  mkGraphicsItem p (rotation g) (zValue g) (isSelected g) (cursor g).
Definition setRotation (g : QGraphicsItem) (a : float64) : QGraphicsItem :=
  mkGraphicsItem (pos g) a (zValue g) (isSelected g) (cursor g).
Definition setZValue (g : QGraphicsItem) (z : float64) : QGraphicsItem :=
  mkGraphicsItem (pos g) (rotation g) z (isSelected g) (cursor g).
Definition setSelected (g : QGraphicsItem) (b : bool) : QGraphicsItem :=
  mkGraphicsItem (pos g) (rotation g) (zValue g) b (cursor g).
Definition setCursor (g : QGraphicsItem) (c : CursorShape) : QGraphicsItem :=
  mkGraphicsItem (pos g) (rotation g) (zValue g) (isSelected g) c.

(** The items of the editor are top-level items of their scene, so the
    scene position of an item is its position. *)
Definition scenePos (g : QGraphicsItem) : QPointF := pos g.

Record QGraphicsSceneMouseEvent :=
  mkMouseEvent { evPos : QPointF; button : MouseButton; modifiers : Z }.

Record QGraphicsSceneHoverEvent := mkHoverEvent { hoverPos : QPointF }.

Record QStyleOptionGraphicsItem := mkStyleOption { state : Z }.

End Qt.
Import Qt.

(** ** The anonymous namespace *)

Definition kSnapAngle : float64 := 45.

Definition Normalized (angle : float64) : float64 :=
  angle
  + inject_Z (if Qlt_bool (fabs angle) 360 then 0
              else (-360 * (if Qlt_bool angle 0 then -1 else 1))%Z).

Definition PenStyled (pen : QPen) (style : PenStyle) : QPen :=
  setStyle pen style.

(** ** ItemBase: data *)

(** [ItemBase::HandleType]. *)
Module HandleType.
Inductive t := None | Left | Right.
Definition eqb (a b : t) : bool :=
  match a, b with
  | None, None | Left, Left | Right, Right => true
  | _, _ => false
  end.
End HandleType.

(** The labels of the context menu ([tr::lng_photo_editor_menu_...]). *)
Inductive LangKey :=
| lng_photo_editor_menu_delete
| lng_photo_editor_menu_flip
| lng_photo_editor_menu_duplicate.

(** The three closures [contextMenuEvent] hands to [addAction], named by
    what their body does; [trigger] below runs them. *)
Inductive MenuCallback := DeleteCallback | FlipCallback | DuplicateCallback.

(** [Ui::PopupMenu]: the actions in the order they were added, and where
    the menu was popped up. *)
Record PopupMenu :=
  mkPopupMenu { actions : list (LangKey * MenuCallback);
                shownAt : option (Z * Z) }.

Definition addAction (m : PopupMenu) (text : LangKey) (cb : MenuCallback)
  : PopupMenu :=
  mkPopupMenu (actions m ++ [(text, cb)]) (shownAt m).

Definition popup (m : PopupMenu) (p : Z * Z) : PopupMenu :=
  mkPopupMenu (actions m) (Some p).

Record QGraphicsSceneContextMenuEvent := mkContextMenuEvent { screenPos : Z * Z }.

(** The item: its [QGraphicsItem] part and the members of [ItemBase].
    [_zoom] is the current value of the zoom variable.  The three sizes
    are float64: [size ()] returns [_horizontalSize] as one, and
    [updateVerticalSize] multiplies it by the float64 aspect ratio.  The
    two pens are set once by the constructor and are the constants
    [_selectPen] and [_selectPenInactive] below. *)
Record ItemBase :=
  mkItemBase { item : QGraphicsItem;
               _zoom : float64;
               _scaledHandleSize : float64;
               _scaledInnerMargins : QMarginsF;
               _horizontalSize : float64;
               _verticalSize : float64;
               _aspectRatio : float64;
               _handle : HandleType.t;
               _flipped : bool;
               _menu : option PopupMenu }.

Definition with_item (it : ItemBase) (g : QGraphicsItem) : ItemBase :=
  mkItemBase g (_zoom it) (_scaledHandleSize it) (_scaledInnerMargins it)
    (_horizontalSize it) (_verticalSize it) (_aspectRatio it) (_handle it)
    (_flipped it) (_menu it).
Definition with_scaled (it : ItemBase) (s : float64) (m : QMarginsF) : ItemBase :=
  mkItemBase (item it) (_zoom it) s m
    (_horizontalSize it) (_verticalSize it) (_aspectRatio it) (_handle it)
    (_flipped it) (_menu it).
Definition with_horizontalSize (it : ItemBase) (v : float64) : ItemBase :=
  mkItemBase (item it) (_zoom it) (_scaledHandleSize it) (_scaledInnerMargins it)
    v (_verticalSize it) (_aspectRatio it) (_handle it) (_flipped it) (_menu it).
Definition with_verticalSize (it : ItemBase) (v : float64) : ItemBase :=
  mkItemBase (item it) (_zoom it) (_scaledHandleSize it) (_scaledInnerMargins it)
    (_horizontalSize it) v (_aspectRatio it) (_handle it) (_flipped it) (_menu it).
Definition with_aspectRatio (it : ItemBase) (v : float64) : ItemBase :=
  mkItemBase (item it) (_zoom it) (_scaledHandleSize it) (_scaledInnerMargins it)
    (_horizontalSize it) (_verticalSize it) v (_handle it) (_flipped it) (_menu it).
Definition with_handle (it : ItemBase) (v : HandleType.t) : ItemBase :=
  mkItemBase (item it) (_zoom it) (_scaledHandleSize it) (_scaledInnerMargins it)
    (_horizontalSize it) (_verticalSize it) (_aspectRatio it) v (_flipped it)
    (_menu it).
Definition with_flipped (it : ItemBase) (v : bool) : ItemBase :=
  mkItemBase (item it) (_zoom it) (_scaledHandleSize it) (_scaledInnerMargins it)
    (_horizontalSize it) (_verticalSize it) (_aspectRatio it) (_handle it) v
    (_menu it).
Definition with_menu (it : ItemBase) (v : option PopupMenu) : ItemBase :=
  mkItemBase (item it) (_zoom it) (_scaledHandleSize it) (_scaledInnerMargins it)
    (_horizontalSize it) (_verticalSize it) (_aspectRatio it) (_handle it)
    (_flipped it) v.

(** What a handler sees besides the item it runs on: the z counter
    [*_lastZ] all items share, and the scene.  [scene = Some rest] when the
    item belongs to a scene whose other items are [rest]; [scene = None]
    when [scene()] is null. *)
Record World :=
  mkWorld { lastZ : float64; this : ItemBase; scene : option (list ItemBase) }.

(** The painter: current pen and brush, whether high quality rendering is
    on, and what has been drawn so far, each shape with the pen, brush and
    quality it was drawn with. *)
Inductive DrawCommand :=
| DrawRect (r : QRectF) (pen : QPen) (brush : QBrush) (hq : bool)
| DrawEllipse (r : QRectF) (pen : QPen) (brush : QBrush) (hq : bool).

Record QPainter :=
  mkPainter { pen : QPen; brush : QBrush; highQuality : bool;
              drawn : list DrawCommand }.

Definition setPen (p : QPainter) (v : QPen) : QPainter :=
  mkPainter v (brush p) (highQuality p) (drawn p).
Definition setBrush (p : QPainter) (v : QBrush) : QPainter :=
  mkPainter (pen p) v (highQuality p) (drawn p).
Definition setHighQuality (p : QPainter) (v : bool) : QPainter :=
  mkPainter (pen p) (brush p) v (drawn p).
Definition drawRect (p : QPainter) (r : QRectF) : QPainter :=
  mkPainter (pen p) (brush p) (highQuality p)
    (drawn p ++ [DrawRect r (pen p) (brush p) (highQuality p)]).
Definition drawEllipse (p : QPainter) (r : QRectF) : QPainter :=
  mkPainter (pen p) (brush p) (highQuality p)
    (drawn p ++ [DrawEllipse r (pen p) (brush p) (highQuality p)]).

(** Sequencing of steps that may have no defined result. *)
Definition bind {A B : Type} (m : option A) (f : A -> option B) : option B :=
  match m with Some a => f a | None => None end.

Notation "x <- m ;; k" := (bind m (fun x => k))
  (at level 61, m at next level, right associativity).

(** ** ItemBase: operations *)

Section Editor.

(** Style constants ([styles/style_editor.h]). *)
Variable photoEditorItemHandleSize : Z.
Variable photoEditorItemMinSize : Z.
Variable photoEditorItemMaxSize : Z.
Variable photoEditorItemBaseHandleFg : QBrush.

(** The toolkit: the item to scene mapping of the scene graph, the base
    class handlers the overrides fall back to, and [std::atan2].  A base
    class handler is given the scene graph's state of this item and
    returns it; what Qt's handlers do to the rest of the scene (clearing
    the selection on a press, moving the other selected items on a move)
    is outside the model, and nothing below is stated about the other
    items across a call of a base class handler. *)
Variable mapToScene : QGraphicsItem -> QPointF -> QPointF.
Variable atan2 : float64 -> float64 -> float64.
Variable QGraphicsItem_mouseMoveEvent
  : QGraphicsItem -> QGraphicsSceneMouseEvent -> QGraphicsItem.
Variable QGraphicsItem_mousePressEvent
  : QGraphicsItem -> QGraphicsSceneMouseEvent -> QGraphicsItem.
Variable QGraphicsItem_mouseReleaseEvent
  : QGraphicsItem -> QGraphicsSceneMouseEvent -> QGraphicsItem.
Variable QGraphicsItem_hoverMoveEvent
  : QGraphicsItem -> QGraphicsSceneHoverEvent -> QGraphicsItem.

(** The in-class initialisers of the members the constructor leaves alone
    ([editor/scene_item_base.h]). *)
Variable initial_verticalSize : float64.
Variable initial_aspectRatio : float64.
Variable initial_handle : HandleType.t.
Variable initial_flipped : bool.

(** [M_PI]: the double its decimal literal 3.14159265358979323846
    denotes, 884279719003555 / 2^48. *)
Definition M_PI : float64 := 884279719003555 # 281474976710656.

Definition _selectPen : QPen :=
  mkPen (SolidPattern (Global white)) 1 DashLine SquareCap RoundJoin.
Definition _selectPenInactive : QPen :=
  mkPen (SolidPattern (Global gray)) 1 DashLine SquareCap RoundJoin.

(** The subscription the constructor makes on the zoom value. *)
Definition zoomChanged (it : ItemBase) (zoom : float64) : ItemBase :=
  let handleSize := inject_Z photoEditorItemHandleSize in
  let s := handleSize / zoom in
  mkItemBase (item it) zoom s (mmul (mkMargins s s s s) (1 # 2))
    (_horizontalSize it) (_verticalSize it) (_aspectRatio it) (_handle it)
    (_flipped it) (_menu it).

(** [ItemBase::ItemBase(zoomValue, zPtr, size, x, y)], with the counter
    [*zPtr] passed in and returned; the zoom subscription fires once with
    the current value. *)
Definition ItemBase_new (zoomValue : float64) (z : float64) (size x y : Z)
  : ItemBase * float64 :=
  let g := mkGraphicsItem (mkPoint 0 0) 0 0 false ArrowCursor in
  let g := setPos g (mkPoint (inject_Z x) (inject_Z y)) in
  let g := setZValue g z in
  let it := mkItemBase g zoomValue 1 (mkMargins 0 0 0 0)
              (inject_Z size) initial_verticalSize initial_aspectRatio
              initial_handle initial_flipped None in
  (zoomChanged it zoomValue, z + 1).

Definition innerRect (it : ItemBase) : QRectF :=
  let hSize := _horizontalSize it in
  let vSize := _verticalSize it in
  mkRect (- hSize / 2) (- vSize / 2) hSize vSize.

Definition boundingRect (it : ItemBase) : QRectF :=
  marginsAdded (innerRect it) (_scaledInnerMargins it).

Definition contentRect (it : ItemBase) : QRectF :=
  marginsRemoved (innerRect it) (_scaledInnerMargins it).

Definition rightHandleRect (it : ItemBase) : QRectF :=
  mkRect ((_horizontalSize it / 2) - (_scaledHandleSize it / 2))
         (0 - (_scaledHandleSize it / 2))
         (_scaledHandleSize it)
         (_scaledHandleSize it).

Definition leftHandleRect (it : ItemBase) : QRectF :=
  mkRect ((- _horizontalSize it / 2) - (_scaledHandleSize it / 2))
         (0 - (_scaledHandleSize it / 2))
         (_scaledHandleSize it)
         (_scaledHandleSize it).

Definition isHandling (it : ItemBase) : bool :=
  negb (HandleType.eqb (_handle it) HandleType.None).

Definition size (it : ItemBase) : float64 := _horizontalSize it.

Definition updateVerticalSize (it : ItemBase) : ItemBase :=
  with_verticalSize it (_horizontalSize it * _aspectRatio it).

Definition setAspectRatio (it : ItemBase) (aspectRatio : float64) : ItemBase :=
  updateVerticalSize (with_aspectRatio it aspectRatio).

Definition handleType (it : ItemBase) (pos : QPointF) : HandleType.t :=
  if contains (rightHandleRect it) pos then HandleType.Right
  else if contains (leftHandleRect it) pos then HandleType.Left
  else HandleType.None.

Definition flipped (it : ItemBase) : bool := _flipped it.

(** Empty in this class. *)
Definition performFlip (it : ItemBase) : ItemBase := it.

Definition setFlip (it : ItemBase) (value : bool) : ItemBase :=
  if negb (Bool.eqb (_flipped it) value)
  then with_flipped (performFlip it) value
  else it.

Definition paint (it : ItemBase) (p : QPainter)
    (option : QStyleOptionGraphicsItem) : QPainter :=
  if negb (has_flag (state option) State_Selected) then p
  else
    (* PainterHighQualityEnabler: on for this scope, restored at its end. *)
    let saved := highQuality p in
    let p := setHighQuality p true in
    let pen := if has_flag (state option) State_HasFocus
               then _selectPen else _selectPenInactive in
    let p := setPen p pen in
    let p := drawRect p (innerRect it) in
    let p := setPen p (PenStyled pen SolidLine) in
    let p := setBrush p photoEditorItemBaseHandleFg in
    let p := drawEllipse p (rightHandleRect it) in
    let p := drawEllipse p (leftHandleRect it) in
    setHighQuality p saved.

(** The resize step of [mouseMoveEvent]: the body of [if (!shift)]. *)
Definition resize (it : ItemBase) (isLeft : bool) (mousePos : QPointF)
  : option ItemBase :=
  let p := if isLeft then pmul mousePos (-1) else mousePos in
  dx <- to_int (2 * x p) ;;
  dy <- to_int (2 * y p) ;;
  Some (updateVerticalSize
          (with_horizontalSize it
             (inject_Z (clamp (if (dx >? dy)%Z then dx else dy)
                              photoEditorItemMinSize
                              photoEditorItemMaxSize)))).

(** The angle [mouseMoveEvent] computes under [// Rotate.]. *)
Definition pointerAngle (it : ItemBase) (isLeft : bool) (mousePos : QPointF)
  : float64 :=
  let origin := mapToScene (item it) (center (boundingRect it)) in
  let pos := mapToScene (item it) mousePos in
  let diff := psub pos origin in
  Normalized (inject_Z (if isLeft then 180 else 0)
              + (atan2 (y diff) (x diff) * 180 / M_PI)).

Definition mouseMoveEvent (it : ItemBase) (event : QGraphicsSceneMouseEvent)
  : option ItemBase :=
  if isHandling it then
    let mousePos := evPos event in
    let shift := testFlag (modifiers event) ShiftModifier in
    let isLeft := HandleType.eqb (_handle it) HandleType.Left in
    it <- (if negb shift then resize it isLeft mousePos else Some it) ;;
    let angle := pointerAngle it isLeft mousePos in
    Some (with_item it
            (setRotation (item it)
               (if shift
                then round (angle / kSnapAngle) * kSnapAngle
                else angle)))
  else
    Some (with_item it (QGraphicsItem_mouseMoveEvent (item it) event)).

Definition hoverMoveEvent (it : ItemBase) (event : QGraphicsSceneHoverEvent)
  : ItemBase :=
  let c := if isHandling it then ClosedHandCursor
           else if negb (HandleType.eqb (handleType it (hoverPos event))
                                        HandleType.None)
                   && isSelected (item it)
                then OpenHandCursor
                else ArrowCursor in
  let it := with_item it (setCursor (item it) c) in
  with_item it (QGraphicsItem_hoverMoveEvent (item it) event).

Definition mousePressEvent (w : World) (event : QGraphicsSceneMouseEvent)
  : World :=
  let it := with_item (this w) (setZValue (item (this w)) (lastZ w)) in
  let z := lastZ w + 1 in
  let it := if MouseButton_eqb (button event) LeftButton
            then with_handle it (handleType it (evPos event))
            else it in
  let it := if isHandling it
            then with_item it (setCursor (item it) ClosedHandCursor)
            else with_item it (QGraphicsItem_mousePressEvent (item it) event) in
  mkWorld z it (scene w).

Definition mouseReleaseEvent (it : ItemBase) (event : QGraphicsSceneMouseEvent)
  : ItemBase :=
  if MouseButton_eqb (button event) LeftButton && isHandling it
  then with_handle it HandleType.None
  else with_item it (QGraphicsItem_mouseReleaseEvent (item it) event).

(** [QGraphicsItem::setSelected] on an [ItemBase]. *)
Definition select (it : ItemBase) (b : bool) : ItemBase :=
  with_item it (setSelected (item it) b).

(** [QGraphicsScene::clearSelection], called on the scene the item is in:
    no item of that scene stays selected. *)
Definition clearSelection (w : World) : World :=
  mkWorld (lastZ w) (select (this w) false)
          (option_map (map (fun o => select o false)) (scene w)).

(** Modelled from the spec: [Editor::Scene::removeItem] (editor/scene.h) is
    not part of this file; it takes the item out of the scene, after which
    [scene()] is null. *)
Definition Scene_removeItem (w : World) : World :=
  mkWorld (lastZ w) (this w) None.

(** Modelled from the spec: [Editor::Scene::addItem] (editor/scene.h) is
    not part of this file; it puts the new item into the scene. *)
Definition Scene_addItem (w : World) (newItem : ItemBase) : World :=
  mkWorld (lastZ w) (this w) (option_map (cons newItem) (scene w)).

(** Modelled from the spec: [duplicate] is pure virtual in [ItemBase] and
    implemented by the concrete item classes, none of which is part of this
    file.  It is taken to build the copy through the [ItemBase] constructor
    of this file, forwarding the zoom value, the z counter, size, x and y
    unchanged. *)
Definition duplicate (zoomValue : float64) (z : float64) (size x y : Z)
  : ItemBase * float64 :=
  ItemBase_new zoomValue z size x y.

(** The bodies of the three closures of [contextMenuEvent].  The arguments
    of [duplicate] are converted to the [int] parameters of the
    constructor. *)
Definition trigger (cb : MenuCallback) (w : World) : option World :=
  match cb with
  | DeleteCallback =>
      match scene w with
      | Some _ => Some (Scene_removeItem w)
      | None => Some w
      end
  | FlipCallback =>
      Some (mkWorld (lastZ w)
                    (setFlip (this w) (negb (flipped (this w))))
                    (scene w))
  | DuplicateCallback =>
      match scene w with
      | Some _ =>
          let it := this w in
          size <- to_int (_horizontalSize it) ;;
          nx <- to_int (x (scenePos (item it)) + _horizontalSize it / 3) ;;
          ny <- to_int (y (scenePos (item it)) + _verticalSize it / 3) ;;
          let (newItem, z) := duplicate (_zoom it) (lastZ w) size nx ny in
          let newItem := setFlip newItem (flipped it) in
          let newItem :=
            with_item newItem (setRotation (item newItem) (rotation (item it))) in
          let w := clearSelection (mkWorld z it (scene w)) in
          let newItem := select newItem true in
          Some (Scene_addItem w newItem)
      | None => Some w
      end
  end.

Definition contextMenuEvent (w : World) (event : QGraphicsSceneContextMenuEvent)
  : World :=
  let w := if negb (isSelected (item (this w)))
              && (match scene w with Some _ => true | None => false end)
           then let w := clearSelection w in
                mkWorld (lastZ w) (select (this w) true) (scene w)
           else w in
  let menu := mkPopupMenu [] None in
  let menu := addAction menu lng_photo_editor_menu_delete DeleteCallback in
  let menu := addAction menu lng_photo_editor_menu_flip FlipCallback in
  let menu := addAction menu lng_photo_editor_menu_duplicate DuplicateCallback in
  let menu := popup menu (screenPos event) in
  mkWorld (lastZ w) (with_menu (this w) (Some menu)) (scene w).

(** ** Event sequences *)

(** The events the scene graph delivers to the item. *)
Inductive Event :=
| MouseMove (e : QGraphicsSceneMouseEvent)
| HoverMove (e : QGraphicsSceneHoverEvent)
| MousePress (e : QGraphicsSceneMouseEvent)
| MouseRelease (e : QGraphicsSceneMouseEvent)
| ContextMenu (e : QGraphicsSceneContextMenuEvent).

Definition on_this (w : World) (it : ItemBase) : World :=
  mkWorld (lastZ w) it (scene w).

Definition deliver (w : World) (ev : Event) : option World :=
  match ev with
  | MouseMove e => it <- mouseMoveEvent (this w) e ;; Some (on_this w it)
  | HoverMove e => Some (on_this w (hoverMoveEvent (this w) e))
  | MousePress e => Some (mousePressEvent w e)
  | MouseRelease e => Some (on_this w (mouseReleaseEvent (this w) e))
  | ContextMenu e => Some (contextMenuEvent w e)
  end.

Fixpoint run (w : World) (evs : list Event) : option World :=
  match evs with
  | [] => Some w
  | ev :: rest => w' <- deliver w ev ;; run w' rest
  end.

(** The specification's reading of the active handle, as a state machine
    of its own: handling starts at a left-button press that hits a handle
    and ends at the next left-button release, and nothing else changes it.
    The hit test is the item's, in the state the press arrives in. *)
Definition claimed_next (w : World) (handling : bool) (ev : Event) : bool :=
  match ev with
  | MousePress e =>
      if MouseButton_eqb (button e) LeftButton
         && negb (HandleType.eqb (handleType (this w) (evPos e)) HandleType.None)
      then true else handling
  | MouseRelease e =>
      if MouseButton_eqb (button e) LeftButton then false else handling
  | _ => handling
  end.

Fixpoint claimed_handling (w : World) (handling : bool) (evs : list Event)
  : option bool :=
  match evs with
  | [] => Some handling
  | ev :: rest =>
      w' <- deliver w ev ;; claimed_handling w' (claimed_next w handling ev) rest
  end.

(** A left-button press or release. *)
Definition left_button_event (ev : Event) : bool :=
  match ev with
  | MousePress e | MouseRelease e => MouseButton_eqb (button e) LeftButton
  | _ => false
  end.

(** The resize step of a move event is defined: the doubled coordinates of
    the pointer, negated for the left handle, fit in an int. *)
Definition resize_defined (isLeft : bool) (mousePos : QPointF) : bool :=
  let p := if isLeft then pmul mousePos (-1) else mousePos in
  fits_int (Qtrunc (2 * x p)) && fits_int (Qtrunc (2 * y p)).

Definition move_defined (it : ItemBase) (event : QGraphicsSceneMouseEvent)
  : bool :=
  negb (isHandling it)
  || testFlag (modifiers event) ShiftModifier
  || resize_defined (HandleType.eqb (_handle it) HandleType.Left) (evPos event).

(** A move event whose resize step is defined whichever handle is active. *)
Definition move_fits (ev : Event) : bool :=
  match ev with
  | MouseMove e => resize_defined true (evPos e) && resize_defined false (evPos e)
  | _ => true
  end.

(** Whether the item is handling after [ev] arrives in [w], by the kind of
    the event. *)
Definition next_handling (w : World) (ev : Event) : bool :=
  match ev with
  | MousePress e =>
      if MouseButton_eqb (button e) LeftButton
      then negb (HandleType.eqb (handleType (this w) (evPos e)) HandleType.None)
      else isHandling (this w)
  | MouseRelease e =>
      if MouseButton_eqb (button e) LeftButton then false
      else isHandling (this w)
  | _ => isHandling (this w)
  end.

(** The events after the last left-button press, when there is neither a
    left-button press nor a left-button release among them. *)
Definition quiet (evs : list Event) : Prop :=
  Forall (fun ev => left_button_event ev = false) evs.

(** The sequence [evs], run from [w], has a left-button press that hits
    a handle and after which the left button is neither pressed nor
    released. *)
Definition grabbed (w : World) (evs : list Event) : Prop :=
  exists (pre : list Event) (e : QGraphicsSceneMouseEvent)
         (post : list Event) (v : World),
    evs = pre ++ MousePress e :: post
    /\ run w pre = Some v
    /\ button e = LeftButton
    /\ handleType (this v) (evPos e) <> HandleType.None
    /\ quiet post.

(** [_verticalSize == _horizontalSize * _aspectRatio]. *)
Definition sizes_agree (it : ItemBase) : Prop :=
  _verticalSize it == _horizontalSize it * _aspectRatio it.

(** Two items have the same three size members. *)
Definition same_sizes (a b : ItemBase) : Prop :=
  _horizontalSize a = _horizontalSize b
  /\ _verticalSize a = _verticalSize b
  /\ _aspectRatio a = _aspectRatio b.

(** ** Sample data

    A concrete item, events and stand-ins for the toolkit, on which the
    statements below are run. *)

(** An item of size 100 by 100 at the origin of the scene, with handles
    of size 10, as [zoomChanged] leaves them at zoom 1; and the same item
    with another size and at another place. *)
Definition sample_item (handle : HandleType.t) : ItemBase :=
  mkItemBase (mkGraphicsItem (mkPoint 0 0) 0 0 true ArrowCursor)
             1 10 (mkMargins 5 5 5 5) 100 100 1 handle false None.

Definition sample_item_at (p : QPointF) (n : Z) : ItemBase :=
  mkItemBase (mkGraphicsItem p 0 0 true ArrowCursor)
             1 10 (mkMargins 5 5 5 5) (inject_Z n) (inject_Z n) 1
             HandleType.None false None.

(** A small item, whose two handle rectangles overlap. *)
Definition sample_item_of_size (n : Z) : ItemBase :=
  sample_item_at (mkPoint 0 0) n.

Definition sample_world (handle : HandleType.t) : World :=
  mkWorld 7 (sample_item handle) (Some [sample_item HandleType.None]).

(** The scene mapping of an item that is not rotated: a translation. *)
Definition sample_mapToScene (g : QGraphicsItem) (p : QPointF) : QPointF :=
  mkPoint (x (pos g) + x p) (y (pos g) + y p).

(** [std::atan2] at the points of the four half axes, which is all the
    samples use; it is not meant for other points. *)
Definition sample_atan2 (dy dx : float64) : float64 :=
  if Qlt_bool 0 dx then 0
  else if Qlt_bool dx 0 then M_PI
  else if Qlt_bool 0 dy then M_PI / 2
  else if Qlt_bool dy 0 then - M_PI / 2
  else 0.

(** A base class handler that leaves the item as it is. *)
Definition sample_base {E : Type} (g : QGraphicsItem) (e : E) : QGraphicsItem := g.

Definition sample_minSize : Z := 20.
Definition sample_maxSize : Z := 500.

Definition left_press (p : QPointF) : QGraphicsSceneMouseEvent :=
  mkMouseEvent p LeftButton 0.
Definition left_release (p : QPointF) : QGraphicsSceneMouseEvent :=
  mkMouseEvent p LeftButton 0.
Definition drag (p : QPointF) (shift : bool) : QGraphicsSceneMouseEvent :=
  mkMouseEvent p NoButton (if shift then ShiftModifier else 0).

(** ** Further notions the statements below use *)

(** The rotation a Shift drag sets for a pointer angle: [// Snap rotation.] *)
Definition snapped (angle : float64) : float64 :=
  round (angle / kSnapAngle) * kSnapAngle.

(** The margins are half the scaled handle size on every side, as the
    zoom subscription of the constructor leaves them. *)
Definition margins_fit (it : ItemBase) : Prop :=
  mleft (_scaledInnerMargins it) == _scaledHandleSize it / 2
  /\ mtop (_scaledInnerMargins it) == _scaledHandleSize it / 2
  /\ mright (_scaledInnerMargins it) == _scaledHandleSize it / 2
  /\ mbottom (_scaledInnerMargins it) == _scaledHandleSize it / 2.

(** The horizontal size is within the limits of the style. *)
Definition size_in_bounds (it : ItemBase) : Prop :=
  inject_Z photoEditorItemMinSize <= _horizontalSize it
  /\ _horizontalSize it <= inject_Z photoEditorItemMaxSize.

Definition is_press (ev : Event) : bool :=
  match ev with MousePress _ => true | _ => false end.

Definition is_contextMenu (ev : Event) : bool :=
  match ev with ContextMenu _ => true | _ => false end.

(** The members mouse events never write: zoom, the scaled handle size
    and margins, and the flip state. *)
Definition same_fixture (a b : ItemBase) : Prop :=
  _zoom a = _zoom b
  /\ _scaledHandleSize a = _scaledHandleSize b
  /\ _scaledInnerMargins a = _scaledInnerMargins b
  /\ _flipped a = _flipped b.

(** What a drag on a handle leaves of the scene graph's state of the
    item: everything but the rotation. *)
Definition same_placement (a b : QGraphicsItem) : Prop :=
  pos a = pos b /\ zValue a = zValue b
  /\ isSelected a = isSelected b /\ cursor a = cursor b.

(** A press on the right handle, a drag, the release and a context menu
    event, on which the statements about sequences are run. *)
Definition sample_events : list Event :=
  [MousePress (left_press (mkPoint 50 0));
   MouseMove (drag (mkPoint 60 10) false);
   MouseRelease (left_release (mkPoint 60 10));
   ContextMenu (mkContextMenuEvent (3, 4)%Z)].

(** ** Facts about the number model *)

Lemma Qlt_bool_iff (a b : Q) : Qlt_bool a b = true <-> a < b.
Proof.
  unfold Qlt_bool. rewrite negb_true_iff.
  split; intro H.
  - apply Qnot_le_lt. intro L. apply Qle_bool_iff in L. congruence.
  - destruct (Qle_bool b a) eqn:E; [|reflexivity].
    apply Qle_bool_iff in E. exfalso. apply (Qlt_not_le _ _ H E).
Qed.

Lemma Qlt_bool_false_iff (a b : Q) : Qlt_bool a b = false <-> b <= a.
Proof.
  unfold Qlt_bool. rewrite negb_false_iff. apply Qle_bool_iff.
Qed.

Lemma Qlt_bool_spec (a b : Q) : reflect (a < b) (Qlt_bool a b).
Proof.
  destruct (Qlt_bool a b) eqn:E; constructor.
  - now apply Qlt_bool_iff.
  - apply Qlt_bool_false_iff in E. now apply Qle_not_lt.
Qed.

(** [round] stays within one half of its argument. *)
Lemma round_close (q : Q) : - (1 # 2) <= round q - q <= 1 # 2.
Proof.
  unfold round.
  destruct (Qlt_bool_spec q 0) as [N | N].
  - pose proof (Qfloor_le (- q + (1 # 2))) as L.
    pose proof (Qlt_floor (- q + (1 # 2))) as U.
    rewrite inject_Z_plus in U. rewrite inject_Z_opp.
    change (inject_Z 1) with 1 in U. split; lra.
  - pose proof (Qfloor_le (q + (1 # 2))) as L.
    pose proof (Qlt_floor (q + (1 # 2))) as U.
    rewrite inject_Z_plus in U.
    change (inject_Z 1) with 1 in U. split; lra.
Qed.

Lemma round_integral (q : Q) : exists k : Z, round q = inject_Z k.
Proof.
  unfold round. destruct (Qlt_bool q 0); eexists; reflexivity.
Qed.

(** No integer is nearer to [q] than [round q]. *)
Lemma round_nearest (q : Q) (m : Z) :
  Qabs (round q - q) <= Qabs (inject_Z m - q).
Proof.
  destruct (round_integral q) as [k Hk].
  pose proof (round_close q) as [L U]. rewrite Hk in *.
  destruct (Z.eq_dec m k) as [-> | Hne]; [apply Qle_refl|].
  apply Qle_trans with (1 # 2).
  - apply Qabs_Qle_condition. split; assumption.
  - destruct (Z_lt_le_dec m k) as [Hlt | Hge].
    + assert (H : inject_Z m + 1 <= inject_Z k).
      { change 1 with (inject_Z 1). rewrite <- inject_Z_plus.
        rewrite <- Zle_Qle. lia. }
      rewrite <- Qabs_opp. eapply Qle_trans; [|apply Qle_Qabs]. lra.
    + assert (H : inject_Z k + 1 <= inject_Z m).
      { change 1 with (inject_Z 1). rewrite <- inject_Z_plus.
        rewrite <- Zle_Qle. lia. }
      eapply Qle_trans; [|apply Qle_Qabs]. lra.
Qed.

(** ** Normalized *)

(** C10. [Normalized] leaves every angle strictly between -360 and 360 as
    it is; an angle [a] with [360 <= |a| < 720] becomes [a - 360 * sign a];
    so for [|a| < 720] the result lies strictly between -360 and 360; and
    [Normalized 360] and [Normalized (-360)] are 0. *)
Theorem Normalized_spec :
  (forall a : float64, -360 < a -> a < 360 -> Normalized a == a)
  /\ (forall a : float64, 360 <= Qabs a -> Qabs a < 720 ->
        Normalized a == a - 360 * (if Qlt_bool a 0 then -1 else 1)
        /\ (0 < a -> Normalized a == a - 360)
        /\ (a < 0 -> Normalized a == a + 360))
  /\ (forall a : float64, Qabs a < 720 ->
        -360 < Normalized a /\ Normalized a < 360)
  /\ Normalized 360 == 0
  /\ Normalized (-360) == 0.
Proof.
  assert (small : forall a : float64, -360 < a -> a < 360 -> Normalized a == a).
  { intros a L U. unfold Normalized, fabs.
    destruct (Qlt_bool_spec (Qabs a) 360) as [H | H].
    - change (inject_Z 0) with 0. lra.
    - exfalso. apply H. apply Qabs_case; intros; lra. }
  assert (big : forall a : float64, 360 <= Qabs a ->
            Normalized a == a - 360 * (if Qlt_bool a 0 then -1 else 1)).
  { intros a L. unfold Normalized, fabs.
    destruct (Qlt_bool_spec (Qabs a) 360) as [H | H]; [lra|].
    destruct (Qlt_bool_spec a 0) as [N | N].
    - change (inject_Z (-360 * -1)) with 360. lra.
    - change (inject_Z (-360 * 1)) with (-360). lra. }
  split; [exact small|].
  split.
  { intros a L U. split; [apply big; exact L|].
    split; intro S; rewrite (big a L);
      destruct (Qlt_bool_spec a 0) as [N | N]; lra. }
  split.
  { intros a U.
    destruct (Qlt_le_dec (Qabs a) 360) as [S | B].
    - assert (-360 < a /\ a < 360) as [L R].
      { revert S. apply Qabs_case; intros; split; lra. }
      rewrite (small a L R). split; assumption.
    - rewrite (big a B). revert B U.
      destruct (Qlt_bool_spec a 0) as [N | N].
      + rewrite (Qabs_neg a) by lra. intros; split; lra.
      + rewrite (Qabs_pos a) by lra. intros; split; lra. }
  split; reflexivity.
Qed.

(** ** The drag handler *)

Lemma round_snap_multiple (a : float64) :
  exists k : Z, round (a / kSnapAngle) * kSnapAngle == inject_Z k * 45.
Proof.
  destruct (round_integral (a / kSnapAngle)) as [k Hk].
  exists k. rewrite Hk. reflexivity.
Qed.

Lemma round_snap_nearest (a : float64) (m : Z) :
  Qabs (round (a / kSnapAngle) * kSnapAngle - a) <= Qabs (inject_Z m * 45 - a).
Proof.
  unfold kSnapAngle.
  assert (E : forall v : Q, Qabs (v * 45 - a) == 45 * Qabs (v - a / 45)).
  { intro v.
    setoid_replace (v * 45 - a) with (45 * (v - a / 45)) by field.
    rewrite Qabs_Qmult. rewrite (Qabs_pos 45) by lra. reflexivity. }
  rewrite !E.
  pose proof (round_nearest (a / 45) m). lra.
Qed.

(** C1. A drag on a handle with Shift held rotates and does nothing
    else: the rotation becomes [round (angle / 45) * 45], where [angle] is
    the normalised angle from the scene position of the item's centre to
    that of the pointer, plus 180 for the left handle.  That value is a
    multiple of 45 and no multiple of 45 is nearer to [angle]. *)
Theorem mouseMoveEvent_shift_snaps
    (it : ItemBase) (event : QGraphicsSceneMouseEvent) :
  isHandling it = true ->
  testFlag (modifiers event) ShiftModifier = true ->
  let isLeft := HandleType.eqb (_handle it) HandleType.Left in
  let angle := pointerAngle it isLeft (evPos event) in
  angle =
    Normalized (inject_Z (if isLeft then 180 else 0)
                + atan2 (y (psub (mapToScene (item it) (evPos event))
                                 (mapToScene (item it) (center (boundingRect it)))))
                        (x (psub (mapToScene (item it) (evPos event))
                                 (mapToScene (item it) (center (boundingRect it)))))
                  * 180 / M_PI)
  /\ mouseMoveEvent it event
     = Some (with_item it
               (setRotation (item it) (round (angle / kSnapAngle) * kSnapAngle)))
  /\ (exists k : Z, round (angle / kSnapAngle) * kSnapAngle == inject_Z k * 45)
  /\ (forall m : Z,
        Qabs (round (angle / kSnapAngle) * kSnapAngle - angle)
        <= Qabs (inject_Z m * 45 - angle)).
Proof.
  intros Hh Hs isLeft angle.
  split; [reflexivity|].
  split.
  - unfold mouseMoveEvent. rewrite Hh, Hs. reflexivity.
  - split; [apply round_snap_multiple | apply round_snap_nearest].
Qed.

Lemma to_int_defined (v : float64) :
  fits_int (Qtrunc v) = true -> to_int v = Some (Qtrunc v).
Proof. unfold to_int. intros ->. reflexivity. Qed.

Lemma to_int_Some (v : float64) (z : Z) :
  to_int v = Some z -> z = Qtrunc v /\ fits_int z = true.
Proof.
  unfold to_int. destruct (fits_int (Qtrunc v)) eqn:E; [|discriminate].
  intros [= <-]. split; [reflexivity | exact E].
Qed.

Lemma to_int_None (v : float64) :
  to_int v = None <-> fits_int (Qtrunc v) = false.
Proof.
  unfold to_int. destruct (fits_int (Qtrunc v)); split; congruence.
Qed.

Lemma larger_is_max (dx dy : Z) :
  (if (dx >? dy)%Z then dx else dy) = Z.max dx dy.
Proof. destruct (Z.gtb_spec dx dy); lia. Qed.

Lemma clamp_between (v lo hi : Z) :
  (lo <= hi)%Z ->
  (lo <= clamp v lo hi <= hi)%Z /\ clamp v lo hi = Z.max lo (Z.min v hi).
Proof.
  intro H. unfold clamp.
  destruct (Z.ltb_spec v lo); [lia|].
  destruct (Z.ltb_spec hi v); lia.
Qed.

(** A move event without Shift on a handle, when the two conversions of
    the resize step are defined. *)
Lemma mouseMoveEvent_resize_eq
    (it : ItemBase) (event : QGraphicsSceneMouseEvent) (r : ItemBase) :
  isHandling it = true ->
  testFlag (modifiers event) ShiftModifier = false ->
  resize it (HandleType.eqb (_handle it) HandleType.Left) (evPos event) = Some r ->
  mouseMoveEvent it event
  = Some (with_item r
            (setRotation (item r)
               (pointerAngle r (HandleType.eqb (_handle it) HandleType.Left)
                             (evPos event)))).
Proof.
  intros Hh Hs Hr. unfold mouseMoveEvent. rewrite Hh, Hs. simpl negb.
  cbv iota. rewrite Hr. reflexivity.
Qed.

(** C2. A drag on a handle without Shift resizes: with [p] the pointer
    position in item coordinates, negated componentwise for the left
    handle, and [dx], [dy] the int values of [2 * p.x] and [2 * p.y], the
    horizontal size becomes the larger of [dx] and [dy] clamped to the
    minimal and maximal item size, and the vertical size becomes the new
    horizontal size times the aspect ratio. *)
Theorem mouseMoveEvent_resizes
    (it : ItemBase) (event : QGraphicsSceneMouseEvent) (dx dy : Z) :
  isHandling it = true ->
  testFlag (modifiers event) ShiftModifier = false ->
  let isLeft := HandleType.eqb (_handle it) HandleType.Left in
  let p := if isLeft
           then mkPoint (x (evPos event) * -1) (y (evPos event) * -1)
           else evPos event in
  to_int (2 * x p) = Some dx ->
  to_int (2 * y p) = Some dy ->
  let newSize := clamp (Z.max dx dy)
                       photoEditorItemMinSize photoEditorItemMaxSize in
  exists it',
    mouseMoveEvent it event = Some it'
    /\ _horizontalSize it' = inject_Z newSize
    /\ _verticalSize it' = inject_Z newSize * _aspectRatio it
    /\ _aspectRatio it' = _aspectRatio it
    /\ ((photoEditorItemMinSize <= photoEditorItemMaxSize)%Z ->
        (photoEditorItemMinSize <= newSize <= photoEditorItemMaxSize)%Z
        /\ newSize = Z.max photoEditorItemMinSize
                           (Z.min (Z.max dx dy) photoEditorItemMaxSize)).
Proof.
  intros Hh Hs isLeft p Hx Hy newSize.
  assert (Hr : resize it isLeft (evPos event)
               = Some (updateVerticalSize
                         (with_horizontalSize it (inject_Z newSize)))).
  { unfold resize. fold isLeft.
    change (if isLeft then pmul (evPos event) (-1) else evPos event) with p.
    rewrite Hx. simpl bind. rewrite Hy. simpl bind.
    rewrite larger_is_max. reflexivity. }
  eexists. split; [apply (mouseMoveEvent_resize_eq it event _ Hh Hs Hr)|].
  repeat split; try reflexivity; apply clamp_between; assumption.
Qed.

(** ** The size members *)

Lemma same_sizes_refl (it : ItemBase) : same_sizes it it.
Proof. repeat split. Qed.

Lemma same_sizes_with_item (it : ItemBase) (g : QGraphicsItem) :
  same_sizes it (with_item it g).
Proof. repeat split. Qed.

Lemma setFlip_same_sizes (it : ItemBase) (value : bool) :
  same_sizes it (setFlip it value).
Proof.
  unfold setFlip. destruct (negb (Bool.eqb (_flipped it) value)); repeat split.
Qed.

Lemma mousePressEvent_same_sizes (w : World) (e : QGraphicsSceneMouseEvent) :
  same_sizes (this w) (this (mousePressEvent w e)).
Proof.
  unfold mousePressEvent. cbn [this].
  destruct (MouseButton_eqb (button e) LeftButton);
    match goal with |- context [if ?c then _ else _] => destruct c end;
    repeat split.
Qed.

Lemma mouseReleaseEvent_same_sizes (it : ItemBase) (e : QGraphicsSceneMouseEvent) :
  same_sizes it (mouseReleaseEvent it e).
Proof.
  unfold mouseReleaseEvent.
  destruct (MouseButton_eqb (button e) LeftButton && isHandling it); repeat split.
Qed.

Lemma contextMenuEvent_same_sizes
    (w : World) (e : QGraphicsSceneContextMenuEvent) :
  same_sizes (this w) (this (contextMenuEvent w e)).
Proof.
  unfold contextMenuEvent. cbn [this].
  match goal with |- context [if ?c then _ else _] => destruct c end;
    repeat split.
Qed.

Lemma trigger_same_sizes (cb : MenuCallback) (w w' : World) :
  trigger cb w = Some w' -> same_sizes (this w) (this w').
Proof.
  destruct cb; cbn [trigger].
  - destruct (scene w); intros [= <-]; repeat split.
  - intros [= <-]. cbn [this]. apply setFlip_same_sizes.
  - destruct (scene w); [|intros [= <-]; repeat split].
    destruct (to_int (_horizontalSize (this w))); [|discriminate].
    destruct (to_int (x (scenePos (item (this w))) + _horizontalSize (this w) / 3));
      [|discriminate].
    destruct (to_int (y (scenePos (item (this w))) + _verticalSize (this w) / 3));
      [|discriminate].
    cbn. intros [= <-]. repeat split.
Qed.

(** C9. After [setAspectRatio], and after a move event that resizes, the
    vertical size is the horizontal size times the aspect ratio; every
    other operation leaves the three size members as they are. *)
Theorem sizes_agree_invariant :
  (forall (it : ItemBase) (aspectRatio : float64),
      sizes_agree (setAspectRatio it aspectRatio))
  /\ (forall (it : ItemBase) (event : QGraphicsSceneMouseEvent),
        isHandling it = true ->
        testFlag (modifiers event) ShiftModifier = false ->
        resize_defined (HandleType.eqb (_handle it) HandleType.Left)
                       (evPos event) = true ->
        exists it', mouseMoveEvent it event = Some it' /\ sizes_agree it')
  /\ (forall (it it' : ItemBase) (event : QGraphicsSceneMouseEvent),
        isHandling it = false
        \/ testFlag (modifiers event) ShiftModifier = true ->
        mouseMoveEvent it event = Some it' -> same_sizes it it')
  /\ (forall (it : ItemBase) (e : QGraphicsSceneHoverEvent),
        same_sizes it (hoverMoveEvent it e))
  /\ (forall (w : World) (e : QGraphicsSceneMouseEvent),
        same_sizes (this w) (this (mousePressEvent w e)))
  /\ (forall (it : ItemBase) (e : QGraphicsSceneMouseEvent),
        same_sizes it (mouseReleaseEvent it e))
  /\ (forall (w : World) (e : QGraphicsSceneContextMenuEvent),
        same_sizes (this w) (this (contextMenuEvent w e)))
  /\ (forall (cb : MenuCallback) (w w' : World),
        trigger cb w = Some w' -> same_sizes (this w) (this w'))
  /\ (forall (it : ItemBase) (value : bool), same_sizes it (setFlip it value))
  /\ (forall (it : ItemBase) (zoom : float64), same_sizes it (zoomChanged it zoom)).
Proof.
  split; [intros it a; unfold sizes_agree; reflexivity|].
  split.
  { intros it event Hh Hs Hd.
    unfold resize_defined in Hd. apply andb_true_iff in Hd as [Hx Hy].
    apply to_int_defined in Hx, Hy.
    assert (Hr : exists r,
               resize it (HandleType.eqb (_handle it) HandleType.Left)
                      (evPos event) = Some r /\ sizes_agree r).
    { unfold resize. rewrite Hx. simpl bind. rewrite Hy. simpl bind.
      eexists. split; [reflexivity|]. unfold sizes_agree. reflexivity. }
    destruct Hr as (r & Hr & Hagree).
    eexists. split; [apply (mouseMoveEvent_resize_eq it event r Hh Hs Hr)|].
    exact Hagree. }
  split.
  { intros it it' event Hc. unfold mouseMoveEvent.
    destruct (isHandling it) eqn:Hh.
    - destruct Hc as [Hc | Hc]; [discriminate|]. rewrite Hc. cbn.
      intros [= <-]. repeat split.
    - intros [= <-]. repeat split. }
  split; [intros; unfold hoverMoveEvent; repeat split|].
  split; [apply mousePressEvent_same_sizes|].
  split; [apply mouseReleaseEvent_same_sizes|].
  split; [apply contextMenuEvent_same_sizes|].
  split; [apply trigger_same_sizes|].
  split; [apply setFlip_same_sizes|].
  intros; repeat split.
Qed.

(** ** Hit test *)


(** ** Painting *)

(** C7. Without [State_Selected] in the option's state [paint] hands
    the painter back as it got it.  With it, [paint] draws, in this order
    and on top of what was drawn before, the inner rectangle with the
    dashed white pen when [State_HasFocus] is set and the dashed gray pen
    otherwise, then an ellipse in the right and one in the left handle
    rectangle, both with the solid variant of that pen and filled with the
    handle colour of the style. *)
Theorem paint_spec
    (it : ItemBase) (p : QPainter) (option : QStyleOptionGraphicsItem) :
  (Z.land (state option) State_Selected = 0%Z -> paint it p option = p)
  /\ (Z.land (state option) State_Selected <> 0%Z ->
      let focused := negb (Z.land (state option) State_HasFocus =? 0)%Z in
      let outline :=
        mkPen (SolidPattern (Global (if focused then white else gray)))
              1 DashLine SquareCap RoundJoin in
      let solid :=
        mkPen (SolidPattern (Global (if focused then white else gray)))
              1 SolidLine SquareCap RoundJoin in
      paint it p option
      = mkPainter solid photoEditorItemBaseHandleFg (highQuality p)
          (drawn p
           ++ [DrawRect (innerRect it) outline (brush p) true;
               DrawEllipse (rightHandleRect it) solid
                           photoEditorItemBaseHandleFg true;
               DrawEllipse (leftHandleRect it) solid
                           photoEditorItemBaseHandleFg true])).
Proof.
  split.
  - intro H. unfold paint, has_flag. rewrite H. reflexivity.
  - intro H. unfold paint, has_flag.
    apply Z.eqb_neq in H. rewrite H. cbn [negb].
    destruct (Z.land (state option) State_HasFocus =? 0)%Z; cbn [negb];
      cbv [setHighQuality drawEllipse drawRect setBrush setPen
           pen brush highQuality drawn];
      rewrite <- !app_assoc; reflexivity.
Qed.

(** ** The context menu *)

(** C4. [contextMenuEvent] leaves the item with a popup menu of exactly
    three actions, in the order delete, flip, duplicate.  Delete takes the
    item out of its scene; flip makes the flip state the negation of what
    [flipped ()] is when the action fires; duplicate runs
    [DuplicateCallback]. *)
Theorem contextMenuEvent_menu
    (w : World) (event : QGraphicsSceneContextMenuEvent) :
  _menu (this (contextMenuEvent w event))
  = Some (mkPopupMenu
            [(lng_photo_editor_menu_delete, DeleteCallback);
             (lng_photo_editor_menu_flip, FlipCallback);
             (lng_photo_editor_menu_duplicate, DuplicateCallback)]
            (Some (screenPos event)))
  /\ (forall v : World,
        trigger DeleteCallback v = Some (mkWorld (lastZ v) (this v) None))
  /\ (forall v : World,
        exists v',
          trigger FlipCallback v = Some v'
          /\ flipped (this v') = negb (flipped (this v))
          /\ scene v' = scene v).
Proof.
  split; [reflexivity|].
  split.
  - intro v. cbn [trigger]. destruct v as [z it [rest|]]; reflexivity.
  - intro v. eexists. split; [reflexivity|]. split; [|reflexivity].
    cbn [this]. unfold setFlip, flipped.
    destruct (_flipped (this v)) eqn:E; cbn; reflexivity.
Qed.

(** Truncation gives back an integer. *)
Lemma Qtrunc_inject_Z (v : float64) (n : Z) : v == inject_Z n -> Qtrunc v = n.
Proof.
  unfold Qeq, Qtrunc. cbn. intro H.
  rewrite Z.mul_1_r in H. rewrite H. apply Z.quot_mul. discriminate.
Qed.

Lemma setFlip_flipped (it : ItemBase) (value : bool) :
  flipped (setFlip it value) = value.
Proof.
  unfold setFlip, flipped.
  destruct (_flipped it) eqn:E, value; cbn; try reflexivity; exact E.
Qed.

Lemma setFlip_frame (it : ItemBase) (value : bool) :
  item (setFlip it value) = item it
  /\ _horizontalSize (setFlip it value) = _horizontalSize it.
Proof.
  unfold setFlip. destruct (negb (Bool.eqb (_flipped it) value)); split; reflexivity.
Qed.

(** C5, as the code has it.  When the duplicate action fires on an item
    in a scene and its three int arguments are representable, the scene
    gains one item.  Its horizontal size is the int value of the
    original's, hence the same whenever that is a whole number; its
    rotation and flip state are the original's; its scene position is the
    original's moved by a third of the horizontal and of the vertical
    size, each coordinate truncated toward zero to an int; and it is
    selected while no other item of the scene is. *)
Theorem duplicate_copies
    (w : World) (rest : list ItemBase) (size nx ny : Z) :
  scene w = Some rest ->
  to_int (_horizontalSize (this w)) = Some size ->
  to_int (x (scenePos (item (this w))) + _horizontalSize (this w) / 3) = Some nx ->
  to_int (y (scenePos (item (this w))) + _verticalSize (this w) / 3) = Some ny ->
  exists (newItem : ItemBase) (w' : World),
    trigger DuplicateCallback w = Some w'
    /\ scene w' = Some (newItem :: map (fun o => select o false) rest)
    /\ this w' = select (this w) false
    /\ _horizontalSize newItem = inject_Z size
    /\ size = Qtrunc (_horizontalSize (this w))
    /\ (forall n : Z, _horizontalSize (this w) == inject_Z n ->
          _horizontalSize newItem == _horizontalSize (this w))
    /\ rotation (item newItem) = rotation (item (this w))
    /\ flipped newItem = flipped (this w)
    /\ scenePos (item newItem) = mkPoint (inject_Z nx) (inject_Z ny)
    /\ nx = Qtrunc (x (scenePos (item (this w))) + _horizontalSize (this w) / 3)
    /\ ny = Qtrunc (y (scenePos (item (this w))) + _verticalSize (this w) / 3)
    /\ isSelected (item newItem) = true
    /\ isSelected (item (this w')) = false
    /\ (forall o : ItemBase,
          In o (map (fun o => select o false) rest) ->
          isSelected (item o) = false).
Proof.
  intros Hs Hsize Hx Hy.
  destruct (to_int_Some _ _ Hsize) as [Esize _].
  destruct (to_int_Some _ _ Hx) as [Ex _].
  destruct (to_int_Some _ _ Hy) as [Ey _].
  pose (made := fst (duplicate (_zoom (this w)) (lastZ w) size nx ny)).
  pose (newItem :=
          select (with_item (setFlip made (flipped (this w)))
                    (setRotation (item (setFlip made (flipped (this w))))
                       (rotation (item (this w)))))
                 true).
  exists newItem.
  eexists. split.
  { cbn [trigger]. rewrite Hs. cbv zeta. rewrite Hsize. simpl bind.
    rewrite Hx. simpl bind. rewrite Hy. simpl bind.
    unfold duplicate, ItemBase_new. cbv zeta.
    unfold Scene_addItem, clearSelection. cbn [scene this lastZ option_map].
    reflexivity. }
  cbn [scene this].
  destruct (setFlip_frame made (flipped (this w))) as [Fi Fh].
  assert (Hh : _horizontalSize newItem = inject_Z size).
  { unfold newItem, select, with_item. cbn [_horizontalSize]. rewrite Fh.
    reflexivity. }
  repeat split; try assumption; try reflexivity.
  - intros n Hn. rewrite Hh, Esize, (Qtrunc_inject_Z _ _ Hn). symmetry. exact Hn.
  - unfold newItem, select, with_item, flipped. cbn [_flipped].
    apply setFlip_flipped.
  - unfold newItem, select, with_item, scenePos, setSelected, setRotation.
    cbn [item pos]. rewrite Fi. reflexivity.
  - intros o Ho. apply in_map_iff in Ho as (o' & <- & _). reflexivity.
Qed.

(** ** Where the handlers are defined *)

Lemma resize_None (it : ItemBase) (isLeft : bool) (mousePos : QPointF) :
  resize it isLeft mousePos = None <-> resize_defined isLeft mousePos = false.
Proof.
  unfold resize, resize_defined, to_int.
  destruct (fits_int (Qtrunc (2 * x (if isLeft then pmul mousePos (-1) else mousePos))));
    destruct (fits_int (Qtrunc (2 * y (if isLeft then pmul mousePos (-1) else mousePos))));
    cbn; split; congruence.
Qed.

Lemma mouseMoveEvent_None (it : ItemBase) (event : QGraphicsSceneMouseEvent) :
  mouseMoveEvent it event = None <-> move_defined it event = false.
Proof.
  unfold mouseMoveEvent, move_defined.
  destruct (isHandling it); cbn [negb orb]; [|split; discriminate].
  destruct (testFlag (modifiers event) ShiftModifier); cbn [negb orb];
    [split; discriminate|].
  rewrite <- (resize_None it).
  destruct (resize it (HandleType.eqb (_handle it) HandleType.Left) (evPos event));
    cbn; split; congruence.
Qed.

Lemma move_fits_defined (it : ItemBase) (e : QGraphicsSceneMouseEvent) :
  move_fits (MouseMove e) = true -> move_defined it e = true.
Proof.
  cbn [move_fits]. intro H. apply andb_true_iff in H as [Hl Hr].
  unfold move_defined.
  destruct (HandleType.eqb (_handle it) HandleType.Left);
    [rewrite Hl | rewrite Hr]; apply orb_true_r.
Qed.

Lemma deliver_defined (w : World) (ev : Event) :
  move_fits ev = true -> exists w', deliver w ev = Some w'.
Proof.
  destruct ev as [e | e | e | e | e]; intro H; cbn [deliver];
    try (eexists; reflexivity).
  destruct (mouseMoveEvent (this w) e) as [it'|] eqn:E.
  - eexists; reflexivity.
  - apply mouseMoveEvent_None in E.
    rewrite (move_fits_defined (this w) e H) in E. discriminate.
Qed.

Lemma run_defined (evs : list Event) :
  forall w : World,
    Forall (fun ev => move_fits ev = true) evs -> exists w', run w evs = Some w'.
Proof.
  induction evs as [| ev rest IH]; intros w H.
  - exists w. reflexivity.
  - inversion H as [| ? ? Hev Hrest]; subst.
    destruct (deliver_defined w ev Hev) as [w1 E1].
    destruct (IH w1 Hrest) as [w2 E2].
    exists w2. cbn [run]. rewrite E1. exact E2.
Qed.

(** ** The active handle *)

Lemma mouseMoveEvent_handle
    (it it' : ItemBase) (e : QGraphicsSceneMouseEvent) :
  mouseMoveEvent it e = Some it' -> _handle it' = _handle it.
Proof.
  unfold mouseMoveEvent. destruct (isHandling it); [|intros [= <-]; reflexivity].
  destruct (testFlag (modifiers e) ShiftModifier); cbn [negb bind].
  - intros [= <-]. reflexivity.
  - unfold resize.
    destruct (to_int _); cbn [bind]; [|discriminate].
    destruct (to_int _); cbn [bind]; [|discriminate].
    intros [= <-]. reflexivity.
Qed.

Lemma mousePressEvent_handle (w : World) (e : QGraphicsSceneMouseEvent) :
  _handle (this (mousePressEvent w e))
  = if MouseButton_eqb (button e) LeftButton
    then handleType (this w) (evPos e)
    else _handle (this w).
Proof.
  unfold mousePressEvent. cbn [this].
  destruct (MouseButton_eqb (button e) LeftButton);
    match goal with |- context [if ?c then _ else _] => destruct c end;
    reflexivity.
Qed.

Lemma mouseReleaseEvent_handle (it : ItemBase) (e : QGraphicsSceneMouseEvent) :
  _handle (mouseReleaseEvent it e)
  = if MouseButton_eqb (button e) LeftButton && isHandling it
    then HandleType.None
    else _handle it.
Proof.
  unfold mouseReleaseEvent.
  destruct (MouseButton_eqb (button e) LeftButton && isHandling it); reflexivity.
Qed.

Lemma contextMenuEvent_handle (w : World) (e : QGraphicsSceneContextMenuEvent) :
  _handle (this (contextMenuEvent w e)) = _handle (this w).
Proof.
  unfold contextMenuEvent. cbn [this].
  match goal with |- context [if ?c then _ else _] => destruct c end;
    reflexivity.
Qed.

Lemma setFlip_handle (it : ItemBase) (value : bool) :
  _handle (setFlip it value) = _handle it.
Proof.
  unfold setFlip. destruct (negb (Bool.eqb (_flipped it) value)); reflexivity.
Qed.

Lemma trigger_handle (cb : MenuCallback) (w w' : World) :
  trigger cb w = Some w' -> _handle (this w') = _handle (this w).
Proof.
  destruct cb; cbn [trigger].
  - destruct (scene w); intros [= <-]; reflexivity.
  - intros [= <-]. apply setFlip_handle.
  - destruct (scene w); [|intros [= <-]; reflexivity].
    destruct (to_int _); cbn [bind]; [|discriminate].
    destruct (to_int _); cbn [bind]; [|discriminate].
    destruct (to_int _); cbn [bind]; [|discriminate].
    cbn. intros [= <-]. reflexivity.
Qed.

Lemma deliver_handling (w w' : World) (ev : Event) :
  deliver w ev = Some w' -> isHandling (this w') = next_handling w ev.
Proof.
  destruct ev as [e | e | e | e | e]; cbn [deliver next_handling].
  - destruct (mouseMoveEvent (this w) e) as [it'|] eqn:E; [|discriminate].
    intros [= <-]. cbn [bind on_this this]. unfold isHandling.
    rewrite (mouseMoveEvent_handle _ _ _ E). reflexivity.
  - intros [= <-]. reflexivity.
  - intros [= <-]. unfold isHandling at 1. rewrite mousePressEvent_handle.
    destruct (MouseButton_eqb (button e) LeftButton); reflexivity.
  - intros [= <-]. cbn [on_this this]. unfold isHandling at 1.
    rewrite mouseReleaseEvent_handle.
    destruct (MouseButton_eqb (button e) LeftButton); cbn [andb];
      [|reflexivity].
    destruct (isHandling (this w)) eqn:H; [reflexivity|exact H].
  - intros [= <-]. unfold isHandling. rewrite contextMenuEvent_handle.
    reflexivity.
Qed.

Lemma run_app (evs1 evs2 : list Event) :
  forall w : World,
    run w (evs1 ++ evs2) = (w1 <- run w evs1 ;; run w1 evs2).
Proof.
  induction evs1 as [| ev rest IH]; intro w; cbn [run app bind]; [reflexivity|].
  destruct (deliver w ev) as [w1|]; cbn [bind]; [apply IH | reflexivity].
Qed.

Lemma run_snoc (evs : list Event) (ev : Event) (w w' : World) :
  run w (evs ++ [ev]) = Some w' ->
  exists w1, run w evs = Some w1 /\ deliver w1 ev = Some w'.
Proof.
  rewrite run_app. destruct (run w evs) as [w1|]; cbn [bind run]; [|discriminate].
  intro H. exists w1. split; [reflexivity|].
  destruct (deliver w1 ev); cbn [bind] in H; [exact H | discriminate].
Qed.

Lemma list_last_case {A : Type} (l : list A) :
  l = [] \/ exists (l' : list A) (a : A), l = l' ++ [a].
Proof.
  destruct l as [| a l] using rev_ind; [left; reflexivity|].
  right. exists l, a. reflexivity.
Qed.

Lemma grabbed_snoc_quiet (w : World) (evs : list Event) (ev : Event) :
  left_button_event ev = false ->
  grabbed w (evs ++ [ev]) <-> grabbed w evs.
Proof.
  intro Hq. split.
  - intros (pre & e & post & v & Heq & Hrun & Hb & Hhit & Hpost).
    destruct (list_last_case post) as [-> | (post0 & last & ->)].
    + apply app_inj_tail in Heq as [_ ->].
      cbn in Hq. rewrite Hb in Hq. discriminate.
    + rewrite app_comm_cons, app_assoc in Heq.
      apply app_inj_tail in Heq as [-> ->].
      exists pre, e, post0, v. repeat split; try assumption.
      apply Forall_app in Hpost as [H _]. exact H.
  - intros (pre & e & post & v & -> & Hrun & Hb & Hhit & Hpost).
    exists pre, e, (post ++ [ev]), v. repeat split; try assumption.
    + rewrite <- app_assoc. reflexivity.
    + apply Forall_app. split; [exact Hpost|]. constructor; [exact Hq|constructor].
Qed.

Lemma grabbed_snoc_left (w : World) (evs : list Event) (ev : Event) :
  left_button_event ev = true ->
  grabbed w (evs ++ [ev]) ->
  exists (e : QGraphicsSceneMouseEvent) (v : World),
    ev = MousePress e /\ run w evs = Some v
    /\ handleType (this v) (evPos e) <> HandleType.None.
Proof.
  intros Hl (pre & e & post & v & Heq & Hrun & Hb & Hhit & Hpost).
  destruct (list_last_case post) as [-> | (post0 & last & ->)].
  - apply app_inj_tail in Heq as [-> ->]. exists e, v. repeat split; assumption.
  - rewrite app_comm_cons, app_assoc in Heq.
    apply app_inj_tail in Heq as [_ ->].
    apply Forall_app in Hpost as [_ H]. inversion H; subst. congruence.
Qed.

Lemma HandleType_eqb_eq (a b : HandleType.t) :
  HandleType.eqb a b = true <-> a = b.
Proof. destruct a, b; cbn; split; congruence. Qed.

Lemma isHandling_true (it : ItemBase) :
  isHandling it = true <-> _handle it <> HandleType.None.
Proof.
  unfold isHandling. rewrite negb_true_iff.
  destruct (HandleType.eqb (_handle it) HandleType.None) eqn:E.
  - apply HandleType_eqb_eq in E. split; congruence.
  - split; [|reflexivity]. intros _ H. apply HandleType_eqb_eq in H. congruence.
Qed.

Lemma next_handling_quiet (w : World) (ev : Event) :
  left_button_event ev = false -> next_handling w ev = isHandling (this w).
Proof.
  destruct ev as [e | e | e | e | e]; cbn; try reflexivity; intros ->; reflexivity.
Qed.

Lemma quiet_snoc (evs : list Event) (ev : Event) :
  quiet (evs ++ [ev]) <-> quiet evs /\ left_button_event ev = false.
Proof.
  unfold quiet. rewrite Forall_app. split.
  - intros [H1 H2]. inversion H2; subst. split; assumption.
  - intros [H1 H2]. split; [exact H1|]. constructor; [exact H2 | constructor].
Qed.

(** The item is handling after a sequence of events exactly when the
    sequence has a left-button press on a handle that no left-button
    press or release follows, or when it was handling before and the
    sequence has no left-button press or release at all. *)
Lemma handling_trace (evs : list Event) :
  forall w w' : World,
    run w evs = Some w' ->
    (isHandling (this w') = true
     <-> grabbed w evs \/ (isHandling (this w) = true /\ quiet evs)).
Proof.
  induction evs as [| ev evs IH] using rev_ind; intros w w' Hrun.
  - cbn in Hrun. injection Hrun as <-. split.
    + intro H. right. split; [exact H | constructor].
    + intros [(pre & e & post & v & Heq & _) | [H _]]; [|exact H].
      destruct pre; discriminate.
  - apply run_snoc in Hrun as (w1 & Hrun1 & Hdel).
    specialize (IH w w1 Hrun1).
    rewrite (deliver_handling _ _ _ Hdel).
    destruct (left_button_event ev) eqn:Hl.
    + split.
      * intro Hn. left.
        destruct ev as [e | e | e | e | e]; cbn in Hl; try discriminate;
          cbn in Hn; rewrite Hl in Hn; [|discriminate].
        exists evs, e, [], w1. repeat split.
        -- exact Hrun1.
        -- destruct (button e); cbn in Hl; congruence.
        -- intro Hnone. rewrite Hnone in Hn. discriminate.
        -- constructor.
      * intros [Hg | [_ Hq]].
        -- apply (grabbed_snoc_left _ _ _ Hl) in Hg as (e & v & -> & Hv & Hhit).
           rewrite Hrun1 in Hv. injection Hv as <-.
           cbn in Hl |- *. rewrite Hl.
           destruct (handleType (this w1) (evPos e)); [congruence | | ]; reflexivity.
        -- apply quiet_snoc in Hq as [_ Hq]. congruence.
    + rewrite (next_handling_quiet _ _ Hl), IH.
      rewrite (grabbed_snoc_quiet _ _ _ Hl), quiet_snoc. tauto.
Qed.

(** C6, as the code has it.  A left-button press sets the active handle
    to the hit test of its position, a left-button release while handling
    resets it to None, and nothing else changes it.  So after any
    sequence of events the item is handling exactly when the last
    left-button press or release in the sequence is a press that hit a
    handle (or there is none and it was handling before): handling ends
    at the next left-button release and also at the next left-button press
    that misses both handles. *)
Theorem handling_follows_left_button :
  (forall (w : World) (e : QGraphicsSceneMouseEvent),
      button e = LeftButton ->
      _handle (this (mousePressEvent w e)) = handleType (this w) (evPos e))
  /\ (forall (it : ItemBase) (e : QGraphicsSceneMouseEvent),
        button e = LeftButton -> isHandling it = true ->
        _handle (mouseReleaseEvent it e) = HandleType.None)
  /\ (forall (w : World) (e : QGraphicsSceneMouseEvent),
        button e <> LeftButton ->
        _handle (this (mousePressEvent w e)) = _handle (this w))
  /\ (forall (it : ItemBase) (e : QGraphicsSceneMouseEvent),
        button e <> LeftButton \/ isHandling it = false ->
        _handle (mouseReleaseEvent it e) = _handle it)
  /\ (forall (it it' : ItemBase) (e : QGraphicsSceneMouseEvent),
        mouseMoveEvent it e = Some it' -> _handle it' = _handle it)
  /\ (forall (it : ItemBase) (e : QGraphicsSceneHoverEvent),
        _handle (hoverMoveEvent it e) = _handle it)
  /\ (forall (w : World) (e : QGraphicsSceneContextMenuEvent),
        _handle (this (contextMenuEvent w e)) = _handle (this w))
  /\ (forall (cb : MenuCallback) (w w' : World),
        trigger cb w = Some w' -> _handle (this w') = _handle (this w))
  /\ (forall (evs : list Event) (w w' : World),
        run w evs = Some w' ->
        (isHandling (this w') = true
         <-> grabbed w evs \/ (isHandling (this w) = true /\ quiet evs))).
Proof.
  split.
  { intros w e Hb. rewrite mousePressEvent_handle, Hb. reflexivity. }
  split.
  { intros it e Hb Hh. rewrite mouseReleaseEvent_handle, Hb, Hh. reflexivity. }
  split.
  { intros w e Hb. rewrite mousePressEvent_handle.
    destruct (button e); try reflexivity. congruence. }
  split.
  { intros it e Hc. rewrite mouseReleaseEvent_handle.
    destruct Hc as [Hb | Hh].
    - destruct (button e); try reflexivity. congruence.
    - rewrite Hh, andb_false_r. reflexivity. }
  split; [apply mouseMoveEvent_handle|].
  split; [reflexivity|].
  split; [apply contextMenuEvent_handle|].
  split; [apply trigger_handle|].
  apply handling_trace.
Qed.

(** ** Further properties: numbers and angles *)

Lemma Normalized_cases (a : float64) :
  (-360 < a /\ a < 360 /\ Normalized a == a)
  \/ (360 <= a /\ Normalized a == a - 360)
  \/ (a <= -360 /\ Normalized a == a + 360).
Proof.
  unfold Normalized, fabs.
  destruct (Qlt_bool_spec (Qabs a) 360) as [S | B].
  - left. change (inject_Z 0) with 0.
    revert S. apply Qabs_case; intros; repeat split; lra.
  - assert (B' : 360 <= Qabs a) by lra.
    destruct (Qlt_bool_spec a 0) as [N | P].
    + right. right. rewrite (Qabs_neg a) in B' by lra.
      change (inject_Z (-360 * -1)) with 360. split; lra.
    + right. left. rewrite (Qabs_pos a) in B' by lra.
      change (inject_Z (-360 * 1)) with (-360). split; lra.
Qed.

(** X1. [Normalized] takes off one turn and no more: an angle of
    absolute value at least 360 comes out with its absolute value lowered
    by exactly 360, so an angle of absolute value 720 or more is still
    outside (-360, 360); and [Normalized] commutes with negation. *)
Theorem Normalized_one_turn :
  (forall a : float64, 360 <= Qabs a ->
     Qabs (Normalized a) == Qabs a - 360)
  /\ (forall a : float64, 720 <= Qabs a -> 360 <= Qabs (Normalized a))
  /\ (forall a : float64, Normalized (- a) == - Normalized a).
Proof.
  assert (one : forall a : float64, 360 <= Qabs a ->
                  Qabs (Normalized a) == Qabs a - 360).
  { intros a B.
    destruct (Normalized_cases a) as [(L & U & _) | [[P E] | [N E]]].
    - exfalso. revert B. apply Qabs_case; intros; lra.
    - rewrite E, (Qabs_pos a), Qabs_pos by lra. reflexivity.
    - rewrite E, (Qabs_neg a), Qabs_neg by lra. lra. }
  split; [exact one|].
  split; [intros a B; rewrite one by lra; lra|].
  intro a.
  destruct (Normalized_cases a) as [(L & U & E) | [[P E] | [N E]]];
    destruct (Normalized_cases (- a)) as [(L' & U' & E') | [[P' E'] | [N' E']]];
    rewrite E, E'; lra.
Qed.

Lemma Z_between_half (j k : Z) :
  - (1 # 2) <= inject_Z j - inject_Z k <= 1 # 2 -> j = k.
Proof.
  intros [L U].
  assert (A : (k < j + 1)%Z).
  { rewrite Zlt_Qlt, inject_Z_plus. change (inject_Z 1) with 1. lra. }
  assert (B : (j < k + 1)%Z).
  { rewrite Zlt_Qlt, inject_Z_plus. change (inject_Z 1) with 1. lra. }
  lia.
Qed.

Lemma round_of_integer (q : float64) (k : Z) :
  q == inject_Z k -> round q = inject_Z k.
Proof.
  intro E. destruct (round_integral q) as [j Hj].
  pose proof (round_close q) as C. rewrite Hj in *.
  f_equal. apply Z_between_half. lra.
Qed.

Lemma round_bounds (q : float64) (lo hi : Z) :
  inject_Z lo <= q -> q <= inject_Z hi ->
  inject_Z lo <= round q <= inject_Z hi.
Proof.
  intros L U. destruct (round_integral q) as [j Hj].
  pose proof (round_close q) as C. rewrite Hj in *.
  assert (A : (lo < j + 1)%Z).
  { rewrite Zlt_Qlt, inject_Z_plus. change (inject_Z 1) with 1. lra. }
  assert (B : (j < hi + 1)%Z).
  { rewrite Zlt_Qlt, inject_Z_plus. change (inject_Z 1) with 1. lra. }
  split; rewrite <- Zle_Qle; lia.
Qed.

(** X2. Snapping is idempotent and keeps the multiples of 45: a Shift
    drag whose pointer angle is already a multiple of 45 sets exactly that
    angle, and snapping a snapped angle changes nothing. *)
Theorem snapped_idempotent :
  (forall (a : float64) (k : Z), a == inject_Z k * 45 -> snapped a == a)
  /\ (forall a : float64, snapped (snapped a) == snapped a).
Proof.
  assert (fix_ : forall (a : float64) (k : Z),
             a == inject_Z k * 45 -> snapped a == a).
  { intros a k E. unfold snapped, kSnapAngle.
    rewrite (round_of_integer (a / 45) k); [lra|].
    rewrite E. field. }
  split; [exact fix_|].
  intro a. destruct (round_integral (a / kSnapAngle)) as [k Hk].
  apply (fix_ _ k). unfold snapped at 1. rewrite Hk. reflexivity.
Qed.

Lemma M_PI_pos : 0 < M_PI.
Proof. reflexivity. Qed.

Lemma degrees_range (r : float64) :
  - M_PI <= r <= M_PI -> -180 <= r * 180 / M_PI <= 180.
Proof.
  intros [L U]. pose proof M_PI_pos as P.
  assert (E : r * 180 / M_PI == (r / M_PI) * 180) by (field; lra).
  rewrite E.
  assert (A : -1 <= r / M_PI).
  { apply Qle_shift_div_l; [exact P | lra]. }
  assert (B : r / M_PI <= 1).
  { apply Qle_shift_div_r; [exact P | lra]. }
  split; lra.
Qed.

(** The pointer angle, when [atan2] stays within half a turn. *)
Lemma pointerAngle_range
    (it : ItemBase) (isLeft : bool) (mousePos : QPointF) :
  (forall dy dx : float64, - M_PI <= atan2 dy dx <= M_PI) ->
  (if isLeft then 0 else -180) <= pointerAngle it isLeft mousePos
  /\ (if isLeft
      then pointerAngle it isLeft mousePos < 360
      else pointerAngle it isLeft mousePos <= 180).
Proof.
  intro R. unfold pointerAngle.
  set (d := atan2 _ _ * 180 / M_PI).
  assert (D : -180 <= d <= 180) by (apply degrees_range, R).
  destruct isLeft.
  - change (inject_Z 180) with 180.
    destruct (Normalized_cases (180 + d)) as [(L & U & E) | [[P E] | [N E]]];
      rewrite E; split; lra.
  - change (inject_Z 0) with 0.
    destruct (Normalized_cases (0 + d)) as [(L & U & E) | [[P E] | [N E]]];
      rewrite E; split; lra.
Qed.

Lemma snapped_range (a : float64) :
  -180 <= a -> a <= 360 -> -180 <= snapped a <= 360.
Proof.
  intros L U. unfold snapped, kSnapAngle.
  destruct (round_bounds (a / 45) (-4) 8) as [A B].
  - change (inject_Z (-4)) with (-4). apply Qle_shift_div_l; lra.
  - change (inject_Z 8) with 8. apply Qle_shift_div_r; lra.
  - change (inject_Z (-4)) with (-4) in A. change (inject_Z 8) with 8 in B.
    split; lra.
Qed.

(** X3. Whatever a drag on a handle does, with or without Shift, the
    rotation it sets lies between -180 and 360 degrees, as long as
    [atan2] answers within half a turn either way; 360 itself is only
    possible with Shift, by snapping upward. *)
Theorem mouseMoveEvent_rotation_range
    (it it' : ItemBase) (event : QGraphicsSceneMouseEvent) :
  (forall dy dx : float64, - M_PI <= atan2 dy dx <= M_PI) ->
  isHandling it = true ->
  mouseMoveEvent it event = Some it' ->
  -180 <= rotation (item it') <= 360
  /\ (testFlag (modifiers event) ShiftModifier = false ->
      rotation (item it') < 360).
Proof.
  intros R Hh. unfold mouseMoveEvent. rewrite Hh.
  destruct (testFlag (modifiers event) ShiftModifier); cbn [negb].
  - cbn [bind]. intros [= <-]. cbn [item rotation with_item setRotation].
    split; [|discriminate].
    pose proof (pointerAngle_range it
                  (HandleType.eqb (_handle it) HandleType.Left)
                  (evPos event) R) as [A B].
    apply snapped_range;
      destruct (HandleType.eqb (_handle it) HandleType.Left); lra.
  - destruct (resize it _ (evPos event)) as [r|]; cbn [bind]; [|discriminate].
    intros [= <-]. cbn [item rotation with_item setRotation].
    pose proof (pointerAngle_range r
                  (HandleType.eqb (_handle it) HandleType.Left)
                  (evPos event) R) as [A B].
    destruct (HandleType.eqb (_handle it) HandleType.Left);
      (split; [split; lra | intros _; lra]).
Qed.

(** ** Further properties: resizing *)

Lemma Qtrunc_nonneg (q : float64) : 0 <= q -> Qtrunc q = Qfloor q.
Proof.
  destruct q as [n d]. unfold Qle, Qtrunc, Qfloor. cbn. intro H.
  apply Z.quot_div_nonneg; lia.
Qed.

Lemma Qtrunc_nonpos (q : float64) : q <= 0 -> Qtrunc q = (- Qfloor (- q))%Z.
Proof.
  destruct q as [n d]. unfold Qle, Qtrunc, Qfloor. cbn. intro H.
  rewrite <- (Z.quot_div_nonneg (- n) (Zpos d)) by lia.
  rewrite Z.quot_opp_l by discriminate. lia.
Qed.

Lemma Qtrunc_comp (a b : float64) : a == b -> Qtrunc a = Qtrunc b.
Proof.
  intro E. destruct (Qlt_le_dec a 0) as [N | P].
  - rewrite (Qtrunc_nonpos a), (Qtrunc_nonpos b) by lra.
    f_equal. apply Qfloor_comp. rewrite E. reflexivity.
  - rewrite (Qtrunc_nonneg a), (Qtrunc_nonneg b) by lra.
    apply Qfloor_comp. exact E.
Qed.

Lemma to_int_comp (a b : float64) : a == b -> to_int a = to_int b.
Proof. intro E. unfold to_int. rewrite (Qtrunc_comp a b E). reflexivity. Qed.

Lemma Qtrunc_close (q : float64) :
  0 <= q -> inject_Z (Qtrunc q) <= q /\ q < inject_Z (Qtrunc q) + 1.
Proof.
  intro P. rewrite (Qtrunc_nonneg q P). split; [apply Qfloor_le|].
  pose proof (Qlt_floor q) as H. rewrite inject_Z_plus in H. exact H.
Qed.

Lemma resize_sizes (it r : ItemBase) (isLeft : bool) (mousePos : QPointF) :
  resize it isLeft mousePos = Some r ->
  let p := if isLeft then pmul mousePos (-1) else mousePos in
  _horizontalSize r
  = inject_Z (clamp (Z.max (Qtrunc (2 * x p)) (Qtrunc (2 * y p)))
                    photoEditorItemMinSize photoEditorItemMaxSize)
  /\ _verticalSize r = _horizontalSize r * _aspectRatio it
  /\ _aspectRatio r = _aspectRatio it
  /\ _handle r = _handle it
  /\ item r = item it
  /\ same_fixture it r
  /\ _menu r = _menu it.
Proof.
  unfold resize. cbv zeta.
  destruct (to_int (2 * x _)) as [dx|] eqn:Ex; cbn [bind]; [|discriminate].
  destruct (to_int (2 * y _)) as [dy|] eqn:Ey; cbn [bind]; [|discriminate].
  apply to_int_Some in Ex as [-> _]. apply to_int_Some in Ey as [-> _].
  intros [= <-]. rewrite larger_is_max. repeat split.
Qed.

Lemma mouseMoveEvent_resize_inv
    (it it' : ItemBase) (event : QGraphicsSceneMouseEvent) :
  isHandling it = true ->
  testFlag (modifiers event) ShiftModifier = false ->
  mouseMoveEvent it event = Some it' ->
  exists r,
    resize it (HandleType.eqb (_handle it) HandleType.Left) (evPos event) = Some r
    /\ it' = with_item r
               (setRotation (item r)
                  (pointerAngle r (HandleType.eqb (_handle it) HandleType.Left)
                                (evPos event))).
Proof.
  intros Hh Hs. unfold mouseMoveEvent. rewrite Hh, Hs. cbn [negb].
  destruct (resize it _ (evPos event)) as [r|]; cbn [bind]; [|discriminate].
  intros [= <-]. exists r. split; reflexivity.
Qed.

(** X4. The size a drag without Shift sets is a function of the pointer
    position and the active handle alone: the size the item had before
    plays no part, so of two such drags in a row the second decides, and
    two items with the same aspect ratio come out with the same size. *)
Theorem resize_forgets_size
    (a b a' b' : ItemBase) (event : QGraphicsSceneMouseEvent) :
  isHandling a = true ->
  _handle b = _handle a ->
  testFlag (modifiers event) ShiftModifier = false ->
  mouseMoveEvent a event = Some a' ->
  mouseMoveEvent b event = Some b' ->
  _horizontalSize a' = _horizontalSize b'
  /\ (_aspectRatio a = _aspectRatio b -> _verticalSize a' = _verticalSize b').
Proof.
  intros Ha Hb Hs Ea Eb.
  assert (Hb' : isHandling b = true) by (unfold isHandling; rewrite Hb; exact Ha).
  apply (mouseMoveEvent_resize_inv _ _ _ Ha Hs) in Ea as (ra & Ra & ->).
  apply (mouseMoveEvent_resize_inv _ _ _ Hb' Hs) in Eb as (rb & Rb & ->).
  rewrite Hb in Rb.
  apply resize_sizes in Ra as (Ha1 & Va & _). apply resize_sizes in Rb as (Hb1 & Vb & _).
  cbn [with_item _horizontalSize _verticalSize].
  split; [congruence|]. intro E. rewrite Va, Vb, Ha1, Hb1, E. reflexivity.
Qed.

(** X5. Pulling the left handle to [-p] sets the size that pulling the
    right handle to [p] sets: the resize step is symmetric about the
    centre of the item. *)
Theorem resize_mirror (it r : ItemBase) (p : QPointF) :
  resize it false p = Some r ->
  exists r',
    resize it true (pmul p (-1)) = Some r'
    /\ _horizontalSize r' = _horizontalSize r
    /\ _verticalSize r' = _verticalSize r.
Proof.
  intro H. unfold resize in *. cbv zeta in *.
  assert (Ex : to_int (2 * x (pmul (pmul p (-1)) (-1))) = to_int (2 * x p)).
  { apply to_int_comp. cbn. ring. }
  assert (Ey : to_int (2 * y (pmul (pmul p (-1)) (-1))) = to_int (2 * y p)).
  { apply to_int_comp. cbn. ring. }
  rewrite Ex, Ey.
  destruct (to_int (2 * x p)) as [dx|]; cbn [bind] in *; [|discriminate].
  destruct (to_int (2 * y p)) as [dy|]; cbn [bind] in *; [|discriminate].
  injection H as <-. eexists. split; [reflexivity|]. split; reflexivity.
Qed.

(** X6. The size follows the pointer: after a drag without Shift whose
    horizontal pull is not negative, the larger one and within the size
    limits, no clamping applies and the new horizontal size is the doubled
    horizontal distance of the pointer from the centre cut down to a whole
    number, so half the new size is at most that distance and less than
    half a unit short of it. *)
Theorem resize_follows_pointer
    (it it' : ItemBase) (event : QGraphicsSceneMouseEvent) :
  isHandling it = true ->
  testFlag (modifiers event) ShiftModifier = false ->
  mouseMoveEvent it event = Some it' ->
  let p := if HandleType.eqb (_handle it) HandleType.Left
           then pmul (evPos event) (-1) else evPos event in
  0 <= x p ->
  (Qtrunc (2 * y p) <= Qtrunc (2 * x p))%Z ->
  (photoEditorItemMinSize <= Qtrunc (2 * x p) <= photoEditorItemMaxSize)%Z ->
  _horizontalSize it' = inject_Z (Qtrunc (2 * x p))
  /\ _horizontalSize it' <= 2 * x p
  /\ 2 * x p < _horizontalSize it' + 1
  /\ _horizontalSize it' / 2 <= x p
  /\ x p < _horizontalSize it' / 2 + (1 # 2).
Proof.
  intros Hh Hs E p Px Hy Hb.
  apply (mouseMoveEvent_resize_inv _ _ _ Hh Hs) in E as (r & R & ->).
  apply resize_sizes in R as (H & _). fold p in H.
  assert (Hsize : _horizontalSize r = inject_Z (Qtrunc (2 * x p))).
  { rewrite H. f_equal. unfold clamp.
    rewrite Z.max_l by exact Hy.
    destruct (Z.ltb_spec (Qtrunc (2 * x p)) photoEditorItemMinSize); [lia|].
    destruct (Z.ltb_spec photoEditorItemMaxSize (Qtrunc (2 * x p))); [lia|].
    reflexivity. }
  destruct (Qtrunc_close (2 * x p)) as [L U]; [lra|].
  cbn [with_item _horizontalSize]. rewrite Hsize.
  split; [reflexivity|]. split; [exact L|]. split; [exact U|].
  unfold Qdiv. change (/ 2) with (1 # 2). split; lra.
Qed.

(** ** Further properties: the hit test *)

(** [contains], by the sign of the width and of the height. *)
Lemma contains_iff (r : QRectF) (p : QPointF) :
  contains r p = true
  <-> ((0 < width r /\ xp r <= x p /\ x p <= xp r + width r)
       \/ (width r < 0 /\ xp r + width r <= x p /\ x p <= xp r))
      /\ ((0 < height r /\ yp r <= y p /\ y p <= yp r + height r)
          \/ (height r < 0 /\ yp r + height r <= y p /\ y p <= yp r)).
Proof.
  unfold contains.
  destruct (Qlt_bool_spec (width r) 0) as [Wn | Wp];
    destruct (Qlt_bool_spec (height r) 0) as [Hn | Hp];
    match goal with |- context [Qeq_bool ?a ?b] =>
      destruct (Qeq_bool a b) eqn:Ex;
        [apply Qeq_bool_iff in Ex | apply Qeq_bool_neq in Ex]
    end;
    try (split; [discriminate | intros [[?|?] [?|?]]; exfalso; lra]);
    match goal with |- context [Qlt_bool ?a ?b || Qlt_bool ?c ?d] =>
      destruct (Qlt_bool_spec a b); destruct (Qlt_bool_spec c d); cbn [orb]
    end;
    try (split; [discriminate | intros [[?|?] [?|?]]; exfalso; lra]);
    match goal with |- context [Qeq_bool ?a ?b] =>
      destruct (Qeq_bool a b) eqn:Ey;
        [apply Qeq_bool_iff in Ey | apply Qeq_bool_neq in Ey]
    end;
    try (split; [discriminate | intros [[?|?] [?|?]]; exfalso; lra]);
    match goal with |- context [Qlt_bool ?a ?b || Qlt_bool ?c ?d] =>
      destruct (Qlt_bool_spec a b); destruct (Qlt_bool_spec c d); cbn [orb]
    end;
    try (split; [discriminate | intros [[?|?] [?|?]]; exfalso; lra]);
    (split; [intros _ | reflexivity]);
    (split; [first [left; repeat split; lra | right; repeat split; lra]
            | first [left; repeat split; lra | right; repeat split; lra]]).
Qed.

Ltac halves := unfold Qdiv in *; change (/ 2) with (1 # 2) in *.

(** X8. When the item is wider than a handle, the two handle rectangles
    share no point, so the priority of the right handle never decides and
    [handleType] answers Left for every point of the left rectangle. *)
Theorem handles_disjoint (it : ItemBase) (p : QPointF) :
  0 < _scaledHandleSize it ->
  _scaledHandleSize it < _horizontalSize it ->
  (contains (rightHandleRect it) p = true ->
   contains (leftHandleRect it) p = false)
  /\ (contains (leftHandleRect it) p = true ->
      handleType it p = HandleType.Left).
Proof.
  intros S H.
  assert (D : contains (rightHandleRect it) p = true ->
              contains (leftHandleRect it) p = true -> False).
  { rewrite !contains_iff. unfold leftHandleRect, rightHandleRect.
    cbn [xp yp width height]. halves.
    intros [[(A & B & C) | (A & B & C)] _] [[(A' & B' & C') | (A' & B' & C')] _];
      lra. }
  split.
  - intro R. destruct (contains (leftHandleRect it) p) eqn:L; [|reflexivity].
    exfalso. exact (D R eq_refl).
  - intro L. unfold handleType. rewrite L.
    destruct (contains (rightHandleRect it) p) eqn:R; [|reflexivity].
    exfalso. exact (D eq_refl L).
Qed.

(** X9. A handle of size zero cannot be hit: [handleType] then answers
    None for every point, so no press starts a drag.  A handle of any
    other size is hit at its centre. *)
Theorem handleType_degenerate (it : ItemBase) :
  (_scaledHandleSize it == 0 ->
   forall p : QPointF, handleType it p = HandleType.None)
  /\ (~ _scaledHandleSize it == 0 ->
      handleType it (mkPoint (_horizontalSize it / 2) 0) = HandleType.Right).
Proof.
  split.
  - intros Z p. unfold handleType.
    destruct (contains (rightHandleRect it) p) eqn:R.
    { exfalso. apply contains_iff in R. cbn [rightHandleRect width] in R.
      destruct R as [[(A & _) | (A & _)] _]; lra. }
    destruct (contains (leftHandleRect it) p) eqn:L; [|reflexivity].
    exfalso. apply contains_iff in L. cbn [leftHandleRect width] in L.
    destruct L as [[(A & _) | (A & _)] _]; lra.
  - intro NZ. unfold handleType.
    assert (R : contains (rightHandleRect it)
                         (mkPoint (_horizontalSize it / 2) 0) = true).
    { apply contains_iff. unfold rightHandleRect.
      cbn [xp yp width height x y]. halves.
      destruct (Qlt_le_dec 0 (_scaledHandleSize it)) as [P | N].
      - split; left; repeat split; lra.
      - assert (_scaledHandleSize it < 0).
        { destruct (Qlt_le_dec (_scaledHandleSize it) 0) as [N' | P'];
            [exact N' | exfalso; apply NZ; lra]. }
        split; right; repeat split; lra. }
    rewrite R. reflexivity.
Qed.

(** ** Further properties: sequences of events *)

(** What one move event on a handle leaves alone. *)
Lemma mouseMoveEvent_handling_frame
    (it it' : ItemBase) (e : QGraphicsSceneMouseEvent) :
  isHandling it = true ->
  mouseMoveEvent it e = Some it' ->
  same_placement (item it) (item it')
  /\ same_fixture it it'
  /\ _menu it' = _menu it.
Proof.
  intros Hh. unfold mouseMoveEvent. rewrite Hh.
  destruct (testFlag (modifiers e) ShiftModifier); cbn [negb].
  - cbn [bind]. intros [= <-]. repeat split.
  - destruct (resize it _ (evPos e)) as [r|] eqn:R; cbn [bind]; [|discriminate].
    intros [= <-].
    apply resize_sizes in R as (_ & _ & _ & _ & I & F & M).
    cbn [with_item item setRotation]. rewrite I.
    split; [repeat split|]. split; [exact F | exact M].
Qed.

Lemma mouseMoveEvent_fixture
    (it it' : ItemBase) (e : QGraphicsSceneMouseEvent) :
  mouseMoveEvent it e = Some it' ->
  same_fixture it it' /\ _menu it' = _menu it.
Proof.
  destruct (isHandling it) eqn:Hh.
  - intro E. apply (mouseMoveEvent_handling_frame _ _ _ Hh) in E.
    destruct E as (_ & F & M). split; assumption.
  - unfold mouseMoveEvent. rewrite Hh. intros [= <-]. repeat split.
Qed.

Lemma mousePressEvent_frame (w : World) (e : QGraphicsSceneMouseEvent) :
  same_fixture (this w) (this (mousePressEvent w e))
  /\ _menu (this (mousePressEvent w e)) = _menu (this w)
  /\ scene (mousePressEvent w e) = scene w
  /\ lastZ (mousePressEvent w e) = lastZ w + 1.
Proof.
  unfold mousePressEvent. cbn [this scene lastZ].
  destruct (MouseButton_eqb (button e) LeftButton);
    match goal with |- context [if ?c then _ else _] => destruct c end;
    repeat split.
Qed.

Lemma mouseReleaseEvent_frame (it : ItemBase) (e : QGraphicsSceneMouseEvent) :
  same_fixture it (mouseReleaseEvent it e)
  /\ _menu (mouseReleaseEvent it e) = _menu it.
Proof.
  unfold mouseReleaseEvent.
  destruct (MouseButton_eqb (button e) LeftButton && isHandling it);
    repeat split.
Qed.

Lemma contextMenuEvent_frame (w : World) (e : QGraphicsSceneContextMenuEvent) :
  same_fixture (this w) (this (contextMenuEvent w e))
  /\ lastZ (contextMenuEvent w e) = lastZ w.
Proof.
  unfold contextMenuEvent. cbn [this lastZ].
  match goal with |- context [if ?c then _ else _] => destruct c end;
    repeat split.
Qed.

Lemma same_fixture_trans (a b c : ItemBase) :
  same_fixture a b -> same_fixture b c -> same_fixture a c.
Proof.
  unfold same_fixture. intros (A1 & A2 & A3 & A4) (B1 & B2 & B3 & B4).
  repeat split; congruence.
Qed.

Lemma deliver_fixture (w w' : World) (ev : Event) :
  deliver w ev = Some w' ->
  same_fixture (this w) (this w')
  /\ (is_contextMenu ev = false -> _menu (this w') = _menu (this w)).
Proof.
  destruct ev as [e | e | e | e | e]; cbn [deliver is_contextMenu].
  - destruct (mouseMoveEvent (this w) e) as [it'|] eqn:E; cbn [bind];
      [|discriminate].
    intros [= <-]. apply mouseMoveEvent_fixture in E as [F M].
    split; [exact F | intros _; exact M].
  - intros [= <-]. repeat split.
  - intros [= <-]. destruct (mousePressEvent_frame w e) as (F & M & _).
    split; [exact F | intros _; exact M].
  - intros [= <-]. destruct (mouseReleaseEvent_frame (this w) e) as (F & M).
    split; [exact F | intros _; exact M].
  - intros [= <-]. split; [apply contextMenuEvent_frame | discriminate].
Qed.

(** X13. No sequence of mouse, hover and context menu events changes
    the zoom, the scaled handle size, the margins or the flip state of
    the item, so margins that are half the handle size stay so; and the
    menu changes only when a context menu event arrives. *)
Theorem events_keep_fixture (evs : list Event) :
  forall w w' : World,
    run w evs = Some w' ->
    same_fixture (this w) (this w')
    /\ (margins_fit (this w) -> margins_fit (this w'))
    /\ (Forall (fun ev => is_contextMenu ev = false) evs ->
        _menu (this w') = _menu (this w)).
Proof.
  assert (main : forall (l : list Event) (w w' : World),
             run w l = Some w' ->
             same_fixture (this w) (this w')
             /\ (Forall (fun ev => is_contextMenu ev = false) l ->
                 _menu (this w') = _menu (this w))).
  { induction l as [| ev rest IH]; intros w w'; cbn [run].
    - intros [= <-]. repeat split.
    - destruct (deliver w ev) as [w1|] eqn:D; cbn [bind]; [|discriminate].
      intro R. destruct (deliver_fixture _ _ _ D) as [F1 M1].
      destruct (IH _ _ R) as [F2 M2].
      split; [exact (same_fixture_trans _ _ _ F1 F2)|].
      intro All. inversion All; subst.
      rewrite M2, M1 by assumption. reflexivity. }
  intros w w' R. destruct (main evs w w' R) as [F M].
  split; [exact F|]. split; [|exact M].
  unfold margins_fit. destruct F as (_ & S & Mg & _). rewrite <- S, <- Mg.
  intro H. exact H.
Qed.

Lemma deliver_lastZ (w w' : World) (ev : Event) :
  deliver w ev = Some w' ->
  lastZ w' = if is_press ev then lastZ w + 1 else lastZ w.
Proof.
  destruct ev as [e | e | e | e | e]; cbn [deliver is_press].
  - destruct (mouseMoveEvent (this w) e); cbn [bind]; [|discriminate].
    intros [= <-]. reflexivity.
  - intros [= <-]. reflexivity.
  - intros [= <-]. apply mousePressEvent_frame.
  - intros [= <-]. reflexivity.
  - intros [= <-]. apply contextMenuEvent_frame.
Qed.

(** X14. The shared z counter counts the presses: after any sequence of
    events it has advanced by the number of mouse press events in it,
    whatever their button and wherever they landed. *)
Theorem run_counts_presses (evs : list Event) :
  forall w w' : World,
    run w evs = Some w' ->
    lastZ w' == lastZ w + inject_Z (Z.of_nat (List.length (filter is_press evs))).
Proof.
  induction evs as [| ev rest IH]; intros w w'; cbn [run].
  - intros [= <-]. cbn [filter List.length Z.of_nat].
    change (inject_Z 0) with 0. lra.
  - destruct (deliver w ev) as [w1|] eqn:D; cbn [bind]; [|discriminate].
    intro R. rewrite (IH _ _ R), (deliver_lastZ _ _ _ D).
    cbn [filter]. destruct (is_press ev); [|reflexivity].
    cbn [List.length]. rewrite Nat2Z.inj_succ. unfold Z.succ.
    rewrite inject_Z_plus. change (inject_Z 1) with 1. lra.
Qed.

Lemma mouseMoveEvent_keeps_sizes
    (it it' : ItemBase) (e : QGraphicsSceneMouseEvent) :
  isHandling it = false \/ testFlag (modifiers e) ShiftModifier = true ->
  mouseMoveEvent it e = Some it' -> same_sizes it it'.
Proof.
  intro C. unfold mouseMoveEvent.
  destruct (isHandling it) eqn:Hh.
  - destruct C as [C | C]; [discriminate|]. rewrite C. cbn [negb bind].
    intros [= <-]. repeat split.
  - intros [= <-]. repeat split.
Qed.

(** One event either leaves the three size members alone or sets them by
    the resize step. *)
Lemma deliver_sizes (w w' : World) (ev : Event) :
  deliver w ev = Some w' ->
  same_sizes (this w) (this w')
  \/ (exists n : Z,
        _horizontalSize (this w')
        = inject_Z (clamp n photoEditorItemMinSize photoEditorItemMaxSize)
        /\ _verticalSize (this w')
           = _horizontalSize (this w') * _aspectRatio (this w')).
Proof.
  destruct ev as [e | e | e | e | e]; cbn [deliver].
  - destruct (mouseMoveEvent (this w) e) as [it'|] eqn:E; cbn [bind];
      [|discriminate].
    intros [= <-]. cbn [on_this this].
    destruct (isHandling (this w)) eqn:Hh;
      [destruct (testFlag (modifiers e) ShiftModifier) eqn:Hs|].
    + left. apply (mouseMoveEvent_keeps_sizes _ _ e); [right; exact Hs | exact E].
    + right. apply (mouseMoveEvent_resize_inv _ _ _ Hh Hs) in E as (r & R & ->).
      apply resize_sizes in R as (H & V & A & _).
      eexists. cbn [with_item _horizontalSize _verticalSize _aspectRatio].
      split; [exact H|]. rewrite V, A. reflexivity.
    + left. apply (mouseMoveEvent_keeps_sizes _ _ e); [left; exact Hh | exact E].
  - intros [= <-]. left. repeat split.
  - intros [= <-]. left. apply mousePressEvent_same_sizes.
  - intros [= <-]. left. apply mouseReleaseEvent_same_sizes.
  - intros [= <-]. left. apply contextMenuEvent_same_sizes.
Qed.

(** X15. The relation between the sizes is an invariant of the event
    handlers: if the vertical size is the horizontal size times the
    aspect ratio before a sequence of events, it is so after it; and if
    the horizontal size is within the limits of the style before, it is
    within them after, given that the lower limit is not above the upper
    one. *)
Theorem run_keeps_size_invariants (evs : list Event) :
  forall w w' : World,
    run w evs = Some w' ->
    (sizes_agree (this w) -> sizes_agree (this w'))
    /\ ((photoEditorItemMinSize <= photoEditorItemMaxSize)%Z ->
        size_in_bounds (this w) -> size_in_bounds (this w')).
Proof.
  induction evs as [| ev rest IH]; intros w w'; cbn [run].
  - intros [= <-]. split; auto.
  - destruct (deliver w ev) as [w1|] eqn:D; cbn [bind]; [|discriminate].
    intro R. destruct (IH _ _ R) as [IA IB].
    destruct (deliver_sizes _ _ _ D) as [(H & V & A) | (n & H & V)].
    + split.
      * intro S. apply IA. unfold sizes_agree in *. rewrite <- H, <- V, <- A.
        exact S.
      * intros O B. apply (IB O). unfold size_in_bounds in *. rewrite <- H.
        exact B.
    + split.
      * intros _. apply IA. unfold sizes_agree. rewrite V. reflexivity.
      * intros O _. apply (IB O). unfold size_in_bounds. rewrite H.
        destruct (clamp_between n _ _ O) as [[L U] _].
        split; rewrite <- Zle_Qle; assumption.
Qed.

(** X17. After a context menu event on an item in a scene the item is
    selected.  If it was not selected before, it is now the only selected
    item of its scene; if it was, the selection of the others is kept.  On
    an item without a scene the event changes no selection. *)
Theorem contextMenuEvent_selection
    (w : World) (e : QGraphicsSceneContextMenuEvent) :
  (scene w <> None -> isSelected (item (this (contextMenuEvent w e))) = true)
  /\ (isSelected (item (this w)) = false ->
      forall rest : list ItemBase,
        scene w = Some rest ->
        scene (contextMenuEvent w e) = Some (map (fun o => select o false) rest)
        /\ forall o : ItemBase,
             In o (map (fun o => select o false) rest) ->
             isSelected (item o) = false)
  /\ (isSelected (item (this w)) = true ->
      scene (contextMenuEvent w e) = scene w
      /\ item (this (contextMenuEvent w e)) = item (this w))
  /\ (scene w = None ->
      scene (contextMenuEvent w e) = None
      /\ item (this (contextMenuEvent w e)) = item (this w)).
Proof.
  split.
  { intro Sc. unfold contextMenuEvent. cbn [this].
    destruct (isSelected (item (this w))) eqn:Sel; cbn [negb andb].
    - exact Sel.
    - destruct (scene w); [reflexivity | congruence]. }
  split.
  { intros Sel rest Sc. unfold contextMenuEvent. cbn [scene].
    rewrite Sel, Sc. cbn [negb andb scene clearSelection]. rewrite Sc.
    split; [reflexivity|].
    intros o Ho. apply in_map_iff in Ho as (o' & <- & _). reflexivity. }
  split.
  { intro Sel. unfold contextMenuEvent. cbn [scene this].
    rewrite Sel. cbn [negb andb]. split; reflexivity. }
  intro Sc. unfold contextMenuEvent. cbn [scene this].
  rewrite Sc, andb_false_r. split; [exact Sc | reflexivity].
Qed.

(** ** Further properties: a drag on a handle from press to release *)

Lemma same_placement_trans (a b c : QGraphicsItem) :
  same_placement a b -> same_placement b c -> same_placement a c.
Proof.
  unfold same_placement. intros (A1 & A2 & A3 & A4) (B1 & B2 & B3 & B4).
  repeat split; congruence.
Qed.

Lemma moves_while_handling (moves : list QGraphicsSceneMouseEvent) :
  forall w w' : World,
    isHandling (this w) = true ->
    run w (map MouseMove moves) = Some w' ->
    same_placement (item (this w)) (item (this w'))
    /\ _handle (this w') = _handle (this w)
    /\ scene w' = scene w
    /\ lastZ w' = lastZ w.
Proof.
  induction moves as [| e rest IH]; intros w w' Hh; cbn [map run].
  - intros [= <-]. repeat split.
  - cbn [deliver].
    destruct (mouseMoveEvent (this w) e) as [it1|] eqn:E; cbn [bind];
      [|discriminate].
    intro R.
    pose proof (mouseMoveEvent_handle _ _ _ E) as H1.
    destruct (mouseMoveEvent_handling_frame _ _ _ Hh E) as (P1 & _).
    destruct (IH (on_this w it1) w') as (P2 & H2 & S2 & Z2); [|exact R|].
    { cbn [on_this this]. unfold isHandling in *. rewrite H1. exact Hh. }
    cbn [on_this this scene lastZ] in *.
    split; [exact (same_placement_trans _ _ _ P1 P2)|].
    split; [congruence|]. split; assumption.
Qed.

(** X18. A drag on a handle, from the left-button press that hits it
    through any number of moves to the left-button release, never moves
    the item and never changes its selection: none of these events
    reaches the base class.  It raises the item to the value of the z
    counter, advances the counter by one, leaves the scene as it is and
    ends with no handle active; the closed hand cursor set by the press
    is still set after the release. *)
Theorem handle_drag_gesture
    (w w' : World) (press release : QGraphicsSceneMouseEvent)
    (moves : list QGraphicsSceneMouseEvent) :
  button press = LeftButton ->
  handleType (this w) (evPos press) <> HandleType.None ->
  button release = LeftButton ->
  run w (MousePress press :: map MouseMove moves ++ [MouseRelease release])
  = Some w' ->
  pos (item (this w')) = pos (item (this w))
  /\ isSelected (item (this w')) = isSelected (item (this w))
  /\ zValue (item (this w')) = lastZ w
  /\ cursor (item (this w')) = ClosedHandCursor
  /\ _handle (this w') = HandleType.None
  /\ scene w' = scene w
  /\ lastZ w' = lastZ w + 1.
Proof.
  intros B Hit B' R.
  cbn [run deliver bind] in R. rewrite run_app in R.
  set (w1 := mousePressEvent w press) in R.
  assert (Hh : _handle (this w1) = handleType (this w) (evPos press)).
  { unfold w1. rewrite mousePressEvent_handle, B. reflexivity. }
  assert (Hi : isHandling (this w1) = true).
  { apply isHandling_true. rewrite Hh. exact Hit. }
  assert (P1 : item (this w1)
               = setCursor (setZValue (item (this w)) (lastZ w)) ClosedHandCursor
               /\ scene w1 = scene w /\ lastZ w1 = lastZ w + 1).
  { unfold w1, mousePressEvent. cbn [this scene lastZ]. rewrite B.
    cbn [MouseButton_eqb].
    change (isHandling
              (with_handle
                 (with_item (this w) (setZValue (item (this w)) (lastZ w)))
                 (handleType
                    (with_item (this w) (setZValue (item (this w)) (lastZ w)))
                    (evPos press))))
      with (negb (HandleType.eqb (handleType (this w) (evPos press))
                                 HandleType.None)).
    destruct (handleType (this w) (evPos press)); [congruence | |];
      repeat split. }
  destruct P1 as (I1 & S1 & Z1).
  destruct (run w1 (map MouseMove moves)) as [w2|] eqn:R2; cbn [bind] in R;
    [|discriminate].
  destruct (moves_while_handling moves w1 w2 Hi R2) as (P2 & H2 & S2 & Z2).
  cbn [run deliver bind] in R. injection R as <-.
  cbn [on_this this scene lastZ].
  assert (Hi2 : isHandling (this w2) = true).
  { unfold isHandling in *. rewrite H2. exact Hi. }
  unfold mouseReleaseEvent. rewrite B', Hi2. cbn [MouseButton_eqb andb].
  cbn [with_handle item _handle].
  destruct P2 as (Pp & Pz & Ps & Pc). rewrite I1 in *.
  cbn [setCursor setZValue pos zValue isSelected cursor] in *.
  repeat split; congruence.
Qed.

(** ** Further properties: the actions of the context menu *)

(** X19. The flip action is an involution: firing it twice gives back
    the world it started from, and [setFlip] with the value the item
    already has changes nothing. *)
Theorem flip_twice (w : World) :
  (w1 <- trigger FlipCallback w ;; trigger FlipCallback w1) = Some w
  /\ setFlip (this w) (flipped (this w)) = this w.
Proof.
  destruct w as [z it sc]. destruct it as [g zm s m hs vs ar hd fl mn].
  cbn [trigger bind this lastZ scene]. unfold setFlip, flipped, performFlip.
  cbn [_flipped]. destruct fl; cbn; split; reflexivity.
Qed.

(** X20. On an item that is in no scene the delete and the duplicate
    action do nothing at all: no item is made and the z counter does not
    move.  Delete takes an item out of its scene once: a second delete
    changes nothing, and after a delete the duplicate action does
    nothing either. *)
Theorem actions_without_scene (w : World) :
  (scene w = None ->
   trigger DeleteCallback w = Some w /\ trigger DuplicateCallback w = Some w)
  /\ (forall w1 : World,
        trigger DeleteCallback w = Some w1 ->
        scene w1 = None
        /\ trigger DeleteCallback w1 = Some w1
        /\ trigger DuplicateCallback w1 = Some w1).
Proof.
  split.
  - intro Sc. cbn [trigger]. rewrite Sc. split; reflexivity.
  - intros w1. cbn [trigger]. destruct (scene w) eqn:Sc; intros [= <-].
    + cbn [Scene_removeItem scene]. repeat split.
    + rewrite Sc. repeat split; exact Sc.
Qed.

(** ** Further properties: where the resize step is defined *)

Lemma Qfloor_le_iff (q : float64) (n : Z) :
  (Qfloor q <= n)%Z <-> q < inject_Z n + 1.
Proof.
  split.
  - intro H. pose proof (Qlt_floor q) as U. rewrite inject_Z_plus in U.
    change (inject_Z 1) with 1 in U.
    rewrite Zle_Qle in H. lra.
  - intro H. pose proof (Qfloor_le q) as L.
    assert (A : (Qfloor q < n + 1)%Z).
    { rewrite Zlt_Qlt, inject_Z_plus. change (inject_Z 1) with 1. lra. }
    lia.
Qed.

Lemma fits_int_iff (v : float64) :
  fits_int (Qtrunc v) = true <-> -2147483649 < v /\ v < 2147483648.
Proof.
  unfold fits_int, INT_MIN, INT_MAX. rewrite andb_true_iff, !Z.leb_le.
  destruct (Qlt_le_dec v 0) as [N | P].
  - rewrite (Qtrunc_nonpos v) by lra.
    assert (E : (- 2 ^ 31 <= - Qfloor (- v))%Z <-> (Qfloor (- v) <= 2147483648)%Z)
      by (change (2 ^ 31)%Z with 2147483648%Z; lia).
    rewrite E, Qfloor_le_iff. change (inject_Z 2147483648) with 2147483648.
    pose proof (Qfloor_le (- v)) as L.
    assert (Z0 : (0 <= Qfloor (- v))%Z).
    { change 0%Z with (Qfloor 0). apply Qfloor_resp_le. lra. }
    split.
    + intros [A _]. split; lra.
    + intros [A _]. split; [lra|]. change (2 ^ 31 - 1)%Z with 2147483647%Z. lia.
  - rewrite (Qtrunc_nonneg v) by lra.
    assert (Z0 : (0 <= Qfloor v)%Z).
    { change 0%Z with (Qfloor 0). apply Qfloor_resp_le. lra. }
    change (2 ^ 31 - 1)%Z with 2147483647%Z. change (- 2 ^ 31)%Z with (-2147483648)%Z.
    rewrite Qfloor_le_iff. change (inject_Z 2147483647) with 2147483647.
    split.
    + intros [_ B]. split; lra.
    + intros [_ B]. split; [lia | lra].
Qed.

(** X21. The bounds of the resize step: a drag without Shift on a handle
    has a defined result exactly when the doubled pointer coordinates,
    negated for the left handle, lie strictly between -2^31 - 1 and 2^31;
    inside these bounds it always resizes. *)
Theorem resize_defined_bounds
    (it : ItemBase) (event : QGraphicsSceneMouseEvent) :
  isHandling it = true ->
  testFlag (modifiers event) ShiftModifier = false ->
  let p := if HandleType.eqb (_handle it) HandleType.Left
           then pmul (evPos event) (-1) else evPos event in
  (exists it', mouseMoveEvent it event = Some it')
  <-> (-2147483649 < 2 * x p /\ 2 * x p < 2147483648)
      /\ (-2147483649 < 2 * y p /\ 2 * y p < 2147483648).
Proof.
  intros Hh Hs p.
  rewrite <- !fits_int_iff, <- andb_true_iff.
  change (fits_int (Qtrunc (2 * x p)) && fits_int (Qtrunc (2 * y p)))
    with (resize_defined (HandleType.eqb (_handle it) HandleType.Left)
                         (evPos event)).
  pose proof (mouseMoveEvent_None it event) as N.
  unfold move_defined in N. rewrite Hh, Hs in N. cbn [negb orb] in N.
  destruct (resize_defined _ (evPos event)).
  - split; [reflexivity|]. intros _.
    destruct (mouseMoveEvent it event) as [it'|]; [exists it'; reflexivity|].
    destruct N as [N _]. discriminate (N eq_refl).
  - split; [|discriminate]. intros [it' E].
    destruct N as [_ N]. rewrite (N eq_refl) in E. discriminate.
Qed.

(** ** Further properties: construction and stacking *)

Lemma press_on_handle (w : World) (e : QGraphicsSceneMouseEvent) :
  button e = LeftButton ->
  handleType (this w) (evPos e) <> HandleType.None ->
  item (this (mousePressEvent w e))
  = setCursor (setZValue (item (this w)) (lastZ w)) ClosedHandCursor.
Proof.
  intros B Hit. unfold mousePressEvent. cbn [this]. rewrite B.
  cbn [MouseButton_eqb].
  change (isHandling
            (with_handle
               (with_item (this w) (setZValue (item (this w)) (lastZ w)))
               (handleType
                  (with_item (this w) (setZValue (item (this w)) (lastZ w)))
                  (evPos e))))
    with (negb (HandleType.eqb (handleType (this w) (evPos e))
                               HandleType.None)).
  destruct (handleType (this w) (evPos e)); [congruence | |]; reflexivity.
Qed.

(** X22. Items are stacked in the order the z counter hands out: the
    constructor places the new item at (x, y) with the given size, not
    selected and not rotated, at the height of the counter, and advances
    the counter; of two items made one after the other the second lies
    above the first; and a left-button press on a handle of the first
    raises it above the second. *)
Theorem ItemBase_new_stacks
    (zoom z : float64) (size1 x1 y1 size2 x2 y2 : Z) :
  let a := fst (ItemBase_new zoom z size1 x1 y1) in
  let z1 := snd (ItemBase_new zoom z size1 x1 y1) in
  let b := fst (ItemBase_new zoom z1 size2 x2 y2) in
  let z2 := snd (ItemBase_new zoom z1 size2 x2 y2) in
  pos (item a) = mkPoint (inject_Z x1) (inject_Z y1)
  /\ _horizontalSize a = inject_Z size1
  /\ isSelected (item a) = false
  /\ rotation (item a) = 0
  /\ zValue (item a) = z
  /\ z1 = z + 1
  /\ zValue (item a) < zValue (item b)
  /\ zValue (item b) < z2
  /\ (forall (sc : option (list ItemBase)) (e : QGraphicsSceneMouseEvent),
        button e = LeftButton ->
        handleType a (evPos e) <> HandleType.None ->
        zValue (item b)
        < zValue (item (this (mousePressEvent (mkWorld z2 a sc) e)))).
Proof.
  intros a z1 b z2.
  assert (Za : zValue (item a) = z) by reflexivity.
  assert (Zb : zValue (item b) = z + 1) by reflexivity.
  assert (Z2 : z2 = z + 1 + 1) by reflexivity.
  split; [reflexivity|]. split; [reflexivity|]. split; [reflexivity|].
  split; [reflexivity|]. split; [exact Za|]. split; [reflexivity|].
  split; [rewrite Za, Zb; lra|].
  split; [rewrite Zb, Z2; lra|].
  intros sc e B Hit. rewrite (press_on_handle (mkWorld z2 a sc) e B Hit).
  cbn [this lastZ zValue setCursor setZValue]. rewrite Zb, Z2. lra.
Qed.

End Editor.

(** ** The statements on sample data *)

Lemma Normalized_spec_witness :
  Normalized 90 == 90
  /\ Normalized 400 == 40
  /\ Normalized (-700) == -340
  /\ -360 < Normalized 719 /\ Normalized 719 < 360.
Proof.
  destruct Normalized_spec as (small & big & range & _ & _).
  split; [apply small; reflexivity|].
  split.
  { destruct (big 400) as (_ & pos & _);
      [discriminate | reflexivity |].
    rewrite pos by reflexivity. reflexivity. }
  split.
  { destruct (big (-700)) as (_ & _ & neg);
      [discriminate | reflexivity |].
    rewrite neg by reflexivity. reflexivity. }
  apply range. reflexivity.
Defined.

Lemma mouseMoveEvent_shift_snaps_witness :
  isHandling (sample_item HandleType.Right) = true
  /\ testFlag (modifiers (drag (mkPoint 0 50) true)) ShiftModifier = true
  /\ option_map (fun it => Qred (rotation (item it)))
       (mouseMoveEvent sample_minSize sample_maxSize sample_mapToScene
          sample_atan2 sample_base (sample_item HandleType.Right)
          (drag (mkPoint 0 50) true))
     = Some 90.
Proof.
  split; [reflexivity|]. split; [reflexivity|].
  destruct (mouseMoveEvent_shift_snaps sample_minSize sample_maxSize
              sample_mapToScene sample_atan2 sample_base
              (sample_item HandleType.Right) (drag (mkPoint 0 50) true)
              eq_refl eq_refl) as (_ & E & _).
  rewrite E. vm_compute. reflexivity.
Defined.

Lemma mouseMoveEvent_resizes_witness :
  isHandling (sample_item HandleType.Left) = true
  /\ testFlag (modifiers (drag (mkPoint (-60) 10) false)) ShiftModifier = false
  /\ to_int (2 * (-60 * -1)) = Some 120%Z
  /\ to_int (2 * (10 * -1)) = Some (-20)%Z
  /\ exists it',
       mouseMoveEvent sample_minSize sample_maxSize sample_mapToScene
         sample_atan2 sample_base (sample_item HandleType.Left)
         (drag (mkPoint (-60) 10) false) = Some it'
       /\ _horizontalSize it' = 120
       /\ _verticalSize it' = 120 * 1.
Proof.
  split; [reflexivity|]. split; [reflexivity|].
  split; [reflexivity|]. split; [reflexivity|].
  destruct (mouseMoveEvent_resizes sample_minSize sample_maxSize
              sample_mapToScene sample_atan2 sample_base
              (sample_item HandleType.Left) (drag (mkPoint (-60) 10) false)
              120 (-20) eq_refl eq_refl eq_refl eq_refl)
    as (it' & E & H & V & _).
  exists it'. split; [exact E|]. split; [exact H | exact V].
Defined.

Lemma sizes_agree_invariant_witness :
  exists it',
    mouseMoveEvent sample_minSize sample_maxSize sample_mapToScene
      sample_atan2 sample_base (sample_item HandleType.Right)
      (drag (mkPoint 60 10) false) = Some it'
    /\ sizes_agree it'.
Proof.
  destruct (sizes_agree_invariant 10 sample_minSize sample_maxSize
              sample_mapToScene sample_atan2 sample_base sample_base
              sample_base sample_base 0 1 HandleType.None false)
    as (_ & resized & _).
  apply resized; reflexivity.
Defined.


Lemma paint_spec_witness :
  paint (SolidPattern (Styled 0xffffff)) (sample_item HandleType.None)
        (mkPainter _selectPen NoBrush false []) (mkStyleOption State_HasFocus)
  = mkPainter _selectPen NoBrush false []
  /\ List.length (drawn (paint (SolidPattern (Styled 0xffffff))
                          (sample_item HandleType.None)
                          (mkPainter _selectPen NoBrush false [])
                          (mkStyleOption (Z.lor State_Selected State_HasFocus))))
     = 3%nat.
Proof.
  split.
  - apply (paint_spec (SolidPattern (Styled 0xffffff))
             (sample_item HandleType.None)
             (mkPainter _selectPen NoBrush false [])
             (mkStyleOption State_HasFocus)).
    reflexivity.
  - destruct (paint_spec (SolidPattern (Styled 0xffffff))
                (sample_item HandleType.None)
                (mkPainter _selectPen NoBrush false [])
                (mkStyleOption (Z.lor State_Selected State_HasFocus)))
      as [_ sel].
    rewrite sel; [reflexivity | discriminate].
Defined.

Lemma duplicate_copies_witness :
  exists newItem w',
    trigger 10 0 1 HandleType.None false DuplicateCallback
            (sample_world HandleType.None) = Some w'
    /\ scene w' = Some [newItem; select (sample_item HandleType.None) false]
    /\ _horizontalSize newItem = 100
    /\ scenePos (item newItem) = mkPoint 33 33
    /\ isSelected (item newItem) = true.
Proof.
  destruct (duplicate_copies 10 0 1 HandleType.None false
              (sample_world HandleType.None) [sample_item HandleType.None]
              100 33 33 eq_refl eq_refl eq_refl eq_refl)
    as (newItem & w' & E & S & _ & H & _ & _ & _ & _ & P & _ & _ & Sel & _).
  exists newItem, w'. repeat split; assumption.
Defined.

Lemma handling_follows_left_button_witness :
  exists w',
    run sample_minSize sample_maxSize sample_mapToScene sample_atan2
        sample_base sample_base sample_base sample_base
        (sample_world HandleType.None)
        [MousePress (left_press (mkPoint 50 0));
         MouseMove (drag (mkPoint 0 50) true)]
    = Some w'
    /\ isHandling (this w') = true.
Proof.
  destruct (run_defined sample_minSize sample_maxSize sample_mapToScene
              sample_atan2 sample_base sample_base sample_base sample_base
              [MousePress (left_press (mkPoint 50 0));
               MouseMove (drag (mkPoint 0 50) true)]
              (sample_world HandleType.None)) as [w' R];
    [repeat constructor|].
  exists w'. split; [exact R|].
  destruct (handling_follows_left_button 10 sample_minSize sample_maxSize
              sample_mapToScene sample_atan2 sample_base sample_base
              sample_base sample_base 0 1 HandleType.None false)
    as (_ & _ & _ & _ & _ & _ & _ & _ & trace).
  apply (trace _ _ _ R). left.
  exists [], (left_press (mkPoint 50 0)), [MouseMove (drag (mkPoint 0 50) true)],
    (sample_world HandleType.None).
  repeat split; try discriminate. repeat constructor.
Defined.

(** ** Inputs on which the specification's wording fails *)

(** The copy of an item of size 100 at the origin is placed at (33, 33),
    not a third of the size away; and the copy of an item of size 99 at
    (1/2, 1/2) is placed at (33, 33), not at (33 + 1/2, 33 + 1/2). *)
Lemma duplicate_position_counterexample :
  (option_map
     (fun w' => option_map (map (fun o => scenePos (item o))) (scene w'))
     (trigger 10 0 1 HandleType.None false DuplicateCallback
              (sample_world HandleType.None))
   = Some (Some [mkPoint 33 33; mkPoint 0 0])
   /\ ~ (33 == x (scenePos (item (this (sample_world HandleType.None))))
               + _horizontalSize (this (sample_world HandleType.None)) / 3))
  /\ (option_map
        (fun w' => option_map (map (fun o => scenePos (item o))) (scene w'))
        (trigger 10 0 1 HandleType.None false DuplicateCallback
                 (mkWorld 7 (sample_item_at (mkPoint (1 # 2) (1 # 2)) 99)
                          (Some [])))
      = Some (Some [mkPoint 33 33])
      /\ ~ (33 == (1 # 2) + 99 / 3)).
Proof.
  split; (split; [reflexivity | discriminate]).
Qed.

(** A left-button press on the right handle followed, with no release in
    between, by a left-button press off the handles: the item is no longer
    handling, although no left-button release has arrived. *)
Lemma handling_claim_counterexample :
  option_map (fun w => isHandling (this w))
    (run sample_minSize sample_maxSize sample_mapToScene sample_atan2
         sample_base sample_base sample_base sample_base
         (sample_world HandleType.None)
         [MousePress (left_press (mkPoint 50 0));
          MousePress (left_press (mkPoint 0 0))])
  = Some false
  /\ claimed_handling sample_minSize sample_maxSize sample_mapToScene
       sample_atan2 sample_base sample_base sample_base sample_base
       (sample_world HandleType.None) false
       [MousePress (left_press (mkPoint 50 0));
        MousePress (left_press (mkPoint 0 0))]
     = Some true.
Proof.
  split; reflexivity.
Qed.

(** ** The further properties on sample data *)

Lemma Normalized_one_turn_witness :
  Qabs (Normalized 1000) == 640 /\ 360 <= Qabs (Normalized (-1000)).
Proof.
  destruct Normalized_one_turn as (one & far & _).
  split.
  - rewrite (one 1000); [reflexivity | discriminate].
  - apply far. discriminate.
Defined.

Lemma snapped_idempotent_witness : snapped 135 == 135.
Proof.
  destruct snapped_idempotent as (fixed & _).
  apply (fixed 135 3%Z). reflexivity.
Defined.

Lemma sample_atan2_range (dy dx : float64) :
  - M_PI <= sample_atan2 dy dx <= M_PI.
Proof.
  unfold sample_atan2.
  destruct (Qlt_bool 0 dx); [split; vm_compute; discriminate|].
  destruct (Qlt_bool dx 0); [split; vm_compute; discriminate|].
  destruct (Qlt_bool 0 dy); [split; vm_compute; discriminate|].
  destruct (Qlt_bool dy 0); split; vm_compute; discriminate.
Qed.

Lemma mouseMoveEvent_rotation_range_witness :
  exists it',
    mouseMoveEvent sample_minSize sample_maxSize sample_mapToScene
      sample_atan2 sample_base (sample_item HandleType.Left)
      (drag (mkPoint 0 50) true) = Some it'
    /\ -180 <= rotation (item it') <= 360.
Proof.
  eexists. split; [reflexivity|].
  apply (mouseMoveEvent_rotation_range sample_minSize sample_maxSize
           sample_mapToScene sample_atan2 sample_base
           (sample_item HandleType.Left) _ (drag (mkPoint 0 50) true)
           sample_atan2_range eq_refl eq_refl).
Defined.

Lemma resize_forgets_size_witness :
  exists a' b',
    mouseMoveEvent sample_minSize sample_maxSize sample_mapToScene
      sample_atan2 sample_base (sample_item HandleType.Right)
      (drag (mkPoint 60 10) false) = Some a'
    /\ mouseMoveEvent sample_minSize sample_maxSize sample_mapToScene
         sample_atan2 sample_base
         (with_handle (sample_item_of_size 300) HandleType.Right)
         (drag (mkPoint 60 10) false) = Some b'
    /\ _horizontalSize a' = _horizontalSize b'.
Proof.
  eexists. eexists. split; [reflexivity|]. split; [reflexivity|].
  exact (proj1 (resize_forgets_size sample_minSize sample_maxSize
                  sample_mapToScene sample_atan2 sample_base
                  (sample_item HandleType.Right)
                  (with_handle (sample_item_of_size 300) HandleType.Right) _ _
                  (drag (mkPoint 60 10) false)
                  eq_refl eq_refl eq_refl eq_refl eq_refl)).
Defined.

Lemma resize_mirror_witness :
  exists r',
    resize sample_minSize sample_maxSize (sample_item HandleType.Left) true
           (pmul (mkPoint 60 10) (-1)) = Some r'
    /\ _horizontalSize r' = 120.
Proof.
  destruct (resize_mirror sample_minSize sample_maxSize
              (sample_item HandleType.Left) _ (mkPoint 60 10) eq_refl)
    as (r' & E & H & _).
  exists r'. split; [exact E | exact H].
Defined.

Lemma resize_follows_pointer_witness :
  exists it',
    mouseMoveEvent sample_minSize sample_maxSize sample_mapToScene
      sample_atan2 sample_base (sample_item HandleType.Right)
      (drag (mkPoint (121 # 2) 10) false) = Some it'
    /\ _horizontalSize it' = 121
    /\ _horizontalSize it' / 2 <= 121 # 2.
Proof.
  eexists. split; [reflexivity|].
  destruct (resize_follows_pointer sample_minSize sample_maxSize
              sample_mapToScene sample_atan2 sample_base
              (sample_item HandleType.Right) _
              (drag (mkPoint (121 # 2) 10) false) eq_refl eq_refl eq_refl)
    as (S & _ & _ & H & _).
  - discriminate.
  - discriminate.
  - split; discriminate.
  - split; [exact S | exact H].
Defined.

Lemma handles_disjoint_witness :
  handleType (sample_item HandleType.None) (mkPoint (-50) 3) = HandleType.Left.
Proof.
  apply (handles_disjoint (sample_item HandleType.None) (mkPoint (-50) 3));
    reflexivity.
Defined.

Lemma handleType_degenerate_witness :
  handleType (sample_item HandleType.None) (mkPoint (100 / 2) 0)
  = HandleType.Right
  /\ handleType (with_scaled (sample_item HandleType.None) 0 (mkMargins 0 0 0 0))
                (mkPoint 50 0)
     = HandleType.None.
Proof.
  split.
  - apply (handleType_degenerate (sample_item HandleType.None)). discriminate.
  - apply (handleType_degenerate
             (with_scaled (sample_item HandleType.None) 0 (mkMargins 0 0 0 0))).
    reflexivity.
Defined.

Lemma events_keep_fixture_witness :
  exists w',
    run sample_minSize sample_maxSize sample_mapToScene sample_atan2
        sample_base sample_base sample_base sample_base
        (sample_world HandleType.None) sample_events = Some w'
    /\ same_fixture (sample_item HandleType.None) (this w')
    /\ margins_fit (this w').
Proof.
  destruct (run_defined sample_minSize sample_maxSize sample_mapToScene
              sample_atan2 sample_base sample_base sample_base sample_base
              sample_events (sample_world HandleType.None)) as [w' R];
    [repeat constructor|].
  exists w'. split; [exact R|].
  destruct (events_keep_fixture sample_minSize sample_maxSize
              sample_mapToScene sample_atan2 sample_base sample_base
              sample_base sample_base sample_events _ _ R) as (F & M & _).
  split; [exact F|]. apply M. repeat split; reflexivity.
Defined.

Lemma run_counts_presses_witness :
  exists w',
    run sample_minSize sample_maxSize sample_mapToScene sample_atan2
        sample_base sample_base sample_base sample_base
        (sample_world HandleType.None) sample_events = Some w'
    /\ lastZ w' == 7 + 1.
Proof.
  destruct (run_defined sample_minSize sample_maxSize sample_mapToScene
              sample_atan2 sample_base sample_base sample_base sample_base
              sample_events (sample_world HandleType.None)) as [w' R];
    [repeat constructor|].
  exists w'. split; [exact R|].
  exact (run_counts_presses sample_minSize sample_maxSize
           sample_mapToScene sample_atan2 sample_base sample_base
           sample_base sample_base sample_events _ _ R).
Defined.

Lemma run_keeps_size_invariants_witness :
  exists w',
    run sample_minSize sample_maxSize sample_mapToScene sample_atan2
        sample_base sample_base sample_base sample_base
        (sample_world HandleType.None) sample_events = Some w'
    /\ sizes_agree (this w')
    /\ size_in_bounds sample_minSize sample_maxSize (this w').
Proof.
  destruct (run_defined sample_minSize sample_maxSize sample_mapToScene
              sample_atan2 sample_base sample_base sample_base sample_base
              sample_events (sample_world HandleType.None)) as [w' R];
    [repeat constructor|].
  exists w'. split; [exact R|].
  destruct (run_keeps_size_invariants sample_minSize sample_maxSize
              sample_mapToScene sample_atan2 sample_base sample_base
              sample_base sample_base sample_events _ _ R) as (A & B).
  split.
  - apply A. reflexivity.
  - apply B; [discriminate|]. split; discriminate.
Defined.

Lemma contextMenuEvent_selection_witness :
  isSelected
    (item (this (contextMenuEvent
                   (mkWorld 7 (select (sample_item HandleType.None) false)
                            (Some [sample_item HandleType.None]))
                   (mkContextMenuEvent (3, 4)%Z)))) = true
  /\ scene (contextMenuEvent
              (mkWorld 7 (select (sample_item HandleType.None) false)
                       (Some [sample_item HandleType.None]))
              (mkContextMenuEvent (3, 4)%Z))
     = Some [select (sample_item HandleType.None) false].
Proof.
  destruct (contextMenuEvent_selection
              (mkWorld 7 (select (sample_item HandleType.None) false)
                       (Some [sample_item HandleType.None]))
              (mkContextMenuEvent (3, 4)%Z)) as (sel & only & _).
  split.
  - apply sel. discriminate.
  - apply (only eq_refl [sample_item HandleType.None] eq_refl).
Defined.

Lemma handle_drag_gesture_witness :
  exists w',
    run sample_minSize sample_maxSize sample_mapToScene sample_atan2
        sample_base sample_base sample_base sample_base
        (sample_world HandleType.None)
        (MousePress (left_press (mkPoint 50 0))
           :: map MouseMove [drag (mkPoint 60 10) false; drag (mkPoint 0 50) true]
           ++ [MouseRelease (left_release (mkPoint 0 50))]) = Some w'
    /\ pos (item (this w')) = mkPoint 0 0
    /\ cursor (item (this w')) = ClosedHandCursor
    /\ _handle (this w') = HandleType.None.
Proof.
  destruct (run_defined sample_minSize sample_maxSize sample_mapToScene
              sample_atan2 sample_base sample_base sample_base sample_base
              (MousePress (left_press (mkPoint 50 0))
                 :: map MouseMove
                      [drag (mkPoint 60 10) false; drag (mkPoint 0 50) true]
                 ++ [MouseRelease (left_release (mkPoint 0 50))])
              (sample_world HandleType.None)) as [w' R];
    [repeat constructor|].
  exists w'. split; [exact R|].
  destruct (handle_drag_gesture sample_minSize sample_maxSize
              sample_mapToScene sample_atan2 sample_base sample_base
              sample_base sample_base (sample_world HandleType.None) w'
              (left_press (mkPoint 50 0)) (left_release (mkPoint 0 50))
              [drag (mkPoint 60 10) false; drag (mkPoint 0 50) true]
              eq_refl)
    as (P & _ & _ & C & H & _); [discriminate | reflexivity | exact R |].
  split; [exact P|]. split; [exact C | exact H].
Defined.

Lemma actions_without_scene_witness :
  trigger 10 0 1 HandleType.None false DuplicateCallback
          (mkWorld 7 (sample_item HandleType.None) None)
  = Some (mkWorld 7 (sample_item HandleType.None) None).
Proof.
  destruct (actions_without_scene 10 0 1 HandleType.None false
              (mkWorld 7 (sample_item HandleType.None) None)) as (none & _).
  apply none. reflexivity.
Defined.

Lemma resize_defined_bounds_witness :
  exists it',
    mouseMoveEvent sample_minSize sample_maxSize sample_mapToScene
      sample_atan2 sample_base (sample_item HandleType.Right)
      (drag (mkPoint 1073741823 (-1073741824)) false) = Some it'.
Proof.
  apply (resize_defined_bounds sample_minSize sample_maxSize
           sample_mapToScene sample_atan2 sample_base
           (sample_item HandleType.Right)
           (drag (mkPoint 1073741823 (-1073741824)) false) eq_refl eq_refl).
  split; split; reflexivity.
Defined.

Lemma ItemBase_new_stacks_witness :
  zValue (item (fst (ItemBase_new 10 0 1 HandleType.None false 1
                        (snd (ItemBase_new 10 0 1 HandleType.None false 1 7
                                100 0 0))
                        100 40 40)))
  < zValue (item (this (mousePressEvent sample_base
                          (mkWorld (7 + 1 + 1)
                             (fst (ItemBase_new 10 0 1 HandleType.None false
                                     1 7 100 0 0))
                             None)
                          (left_press (mkPoint 50 0))))).
Proof.
  destruct (ItemBase_new_stacks 10 sample_base 0 1 HandleType.None false
              1 7 100 0 0 100 40 40)
    as (_ & _ & _ & _ & _ & _ & _ & _ & raise).
  apply (raise None (left_press (mkPoint 50 0))); [reflexivity | discriminate].
Defined.
